(** * The CFR convergence benchmark (cfr_benchmark.py)

    A shallow embedding of [CFRBenchmark]: the checkpointed runner
    [run_algorithm], the batch driver [compare_algorithms] and the two
    reports [print_summary] and [plot_convergence].

    The benchmark object is mutated in place by its methods and talks to
    three outside parties: the solver it drives, standard output and the
    plotting backend.  The embedding threads one [state] through every
    method: the benchmark object itself plus the chronological [trace] of
    every call that leaves the harness (solver construction, [cfr.run],
    [best_response], [print], [plt.*]).  Python exceptions are the [Raise]
    outcome of a small state-and-error monad; a raise keeps whatever was
    already written to the object and to the trace, as in Python. *)

From Stdlib Require Import ZArith List String Ascii Bool Arith Lia.
Import ListNotations.
Local Open Scope Z_scope.

(** ** Outcomes of a Python call *)

(** The exceptions the harness itself can raise. *)
Inductive exn : Type :=
| ValueError          (* raise ValueError(f"Invalid config format: {config}") *)
| ZeroDivisionError   (* total_iterations // 0 *)
| IndexError          (* [][-1] *)
| TypeError.          (* a config item of the wrong kind *)

Inductive result (A : Type) : Type :=
| Ok (a : A)
| Raise (e : exn).
Arguments Ok {A} a.
Arguments Raise {A} e.

(** ** Python primitives used by the harness *)

(** [a // b] on integers: floor division, [ZeroDivisionError] when [b] is 0.
    [Z.div] rounds towards minus infinity like Python does. *)
Definition floordiv (a b : Z) : result Z :=
  if b =? 0 then Raise ZeroDivisionError else Ok (a / b).

(** [range(n)]: 0, 1, ..., n-1; empty when [n <= 0]. *)
Definition range (n : Z) : list Z :=
  map Z.of_nat (seq 0 (Z.to_nat n)).

(** [xs[-1]]: the last element, [IndexError] on the empty list. *)
Fixpoint py_last {A : Type} (xs : list A) : result A :=
  match xs with
  | [] => Raise IndexError
  | [x] => Ok x
  | _ :: rest => py_last rest
  end.

(** Truthiness of an optional string argument ([if save_path:]). *)
Definition truthy_path (p : option string) : bool :=
  match p with
  | None => false
  | Some s => negb (String.eqb s "")
  end.

(** ** Insertion-ordered dictionaries with string keys

    [self.results] is a Python [dict]: iteration follows first insertion,
    and assigning to a key that is already present replaces the value
    where it stands. *)
Section Dict.
Context {V : Type}.

Definition dict : Type := list (string * V).

Fixpoint dict_get (k : string) (d : dict) : option V :=
  match d with
  | [] => None
  | (k', v) :: rest => if String.eqb k k' then Some v else dict_get k rest
  end.

(** [d[k] = v] *)
Fixpoint dict_set (k : string) (v : V) (d : dict) : dict :=
  match d with
  | [] => [(k, v)]
  | (k', v') :: rest =>
      if String.eqb k k' then (k, v) :: rest
      else (k', v') :: dict_set k v rest
  end.

(** [k in d] *)
Definition dict_mem (k : string) (d : dict) : bool :=
  match dict_get k d with Some _ => true | None => false end.

Definition keys (d : dict) : list string := map fst d.
End Dict.
Arguments dict V : clear implicits.

(** ** The solver contract

    The solvers, the game rules and the strategy profile live in
    [pokercfr], [pokergames] and [pokerstrategy]; the harness only uses the
    four capabilities below, which are taken as parameters.  A solver
    object is a value of [solver]; [cfr.run(n)] returns nothing and mutates
    the object, which is written here as the new object.  The calls into
    the solver are taken to return and to depend on their arguments only:
    what happens when a solver raises, and where a sampling solver takes
    its randomness from, are left out. *)
Class Solver : Type := {
  (** the game definition handed to every constructor *)
  rules : Type;
  (** constructor options, [**algorithm_kwargs] *)
  kwargs : Type;
  (** solver objects, of whatever class *)
  solver : Type;
  (** strategy profiles *)
  profile : Type;
  (** what [best_response()] returns first *)
  strategy : Type;
  (** the numbers [best_response()] returns *)
  num : Type;
  (** [{}], the options when none are given *)
  empty_kwargs : kwargs;
  (** [cfr.run(n)] *)
  run : solver -> Z -> solver;
  (** [cfr.profile] *)
  profile_of : solver -> profile;
  (** [profile.best_response()]: [result[0]] is the best-response profile,
      [result[1]] the per-player values *)
  best_response : profile -> strategy * list num;
  (** the [0] and [+] behind Python's [sum] *)
  num_zero : num;
  num_add : num -> num -> num
}.

(** Keyword arguments of [plt.plot], as written. *)
Definition style : Type := list (string * string).

(** [{"linewidth": 2}] *)
Definition default_style : style := [("linewidth"%string, "2"%string)].

Section Benchmark.
Context {SC : Solver}.

(** [algorithm_class(game_rules, **algorithm_kwargs)] *)
Definition algorithm_class : Type := rules -> kwargs -> solver.

(** [sum(xs)]: starts from 0 and adds from the left. *)
Definition sum (xs : list num) : num := fold_left num_add xs num_zero.

(** One entry of [self.results]. *)
Record run_data : Type := mk_run_data {
  iterations : list Z;
  exploitability : list num;
  final_strategy : profile
}.

Record CFRBenchmark : Type := mk_benchmark {
  game_rules : rules;
  game_name : string;
  results : dict run_data
}.

(** [CFRBenchmark(game_rules, game_name)] *)
Definition init (game_rules : rules) (game_name : string) : CFRBenchmark :=
  mk_benchmark game_rules game_name [].

(** *** What leaves the harness *)

(** A printed line, kept structured (no number formatting). *)
Inductive line : Type :=
| Rule (c : ascii) (width : nat)
| Running (algorithm_name game_name : string)
| Progress (current_iter : Z) (exploitability : num)
| SummaryTitle (game_name : string)
| SummaryColumns
| SummaryRow (algorithm_name : string) (final_iter : Z) (final_exploit : num)
| PlotSaved (save_path : string).

Inductive plt_call : Type :=
| figure (figsize : Z * Z)
| style_use (name : string)
| plot (xs : list Z) (ys : list num) (label : string) (st : style)
| xlabel (s : string)
| ylabel (s : string)
| title (s : string)
| legend
| grid
| xscale_log
| yscale_log
| tight_layout
| savefig (save_path : string)
| show.

Inductive event : Type :=
| Print (l : line)
| Construct (r : rules) (kw : kwargs)
| Run (n : Z)
| BestResponse (p : profile)
| Plt (c : plt_call).

Record state : Type := mk_state {
  bench : CFRBenchmark;
  trace : list event
}.

(** *** The monad of methods *)

Definition M (A : Type) : Type := state -> result A * state.

Definition ret {A : Type} (a : A) : M A := fun w => (Ok a, w).

Definition bind {A B : Type} (m : M A) (k : A -> M B) : M B :=
  fun w =>
    match m w with
    | (Ok a, w') => k a w'
    | (Raise e, w') => (Raise e, w')
    end.

Definition lift {A : Type} (r : result A) : M A := fun w => (r, w).

Definition emit (e : event) : M unit :=
  fun w => (Ok tt, mk_state (bench w) (trace w ++ [e])).

Definition get_self : M CFRBenchmark := fun w => (Ok (bench w), w).

(** [self.results[k] = v] *)
Definition set_result (k : string) (v : run_data) : M unit :=
  fun w =>
    let b := bench w in
    (Ok tt,
     mk_state (mk_benchmark (game_rules b) (game_name b)
                            (dict_set k v (results b)))
              (trace w)).

Notation "x <- m ;; k" := (bind m (fun x => k))
  (at level 61, m at next level, right associativity).
Notation "m ;; k" := (bind m (fun _ => k))
  (at level 61, right associativity).

Definition print (l : line) : M unit := emit (Print l).

(** [self.results.items()], read when the loop starts *)
Definition get_items : M (dict run_data) :=
  b <- get_self ;; ret (results b).

(** *** run_algorithm *)

(** The loop state: the solver object and the two local lists. *)
Definition loop_state : Type := solver * list Z * list num.

(** One pass through the body of [for checkpoint in range(num_checkpoints)]. *)
Definition run_block (checkpoint_interval checkpoint : Z) (st : loop_state)
  : M loop_state :=
  let '(cfr, iterations_list, exploitability_list) := st in
  let current_iter := (checkpoint + 1) * checkpoint_interval in
  emit (Run checkpoint_interval) ;;
  let cfr := run cfr checkpoint_interval in
  emit (BestResponse (profile_of cfr)) ;;
  let result := best_response (profile_of cfr) in
  let exploitability := sum (snd result) in
  let iterations_list := iterations_list ++ [current_iter] in
  let exploitability_list := exploitability_list ++ [exploitability] in
  print (Progress current_iter exploitability) ;;
  ret (cfr, iterations_list, exploitability_list).

Fixpoint run_blocks (checkpoint_interval : Z) (checkpoints : list Z)
  (st : loop_state) : M loop_state :=
  match checkpoints with
  | [] => ret st
  | checkpoint :: rest =>
      st' <- run_block checkpoint_interval checkpoint st ;;
      run_blocks checkpoint_interval rest st'
  end.

Definition run_algorithm (algorithm_class : algorithm_class)
  (algorithm_name : string) (total_iterations checkpoint_interval : Z)
  (algorithm_kwargs : option kwargs) : M run_data :=
  self <- get_self ;;
  print (Rule "=" 60) ;;
  print (Running algorithm_name (game_name self)) ;;
  print (Rule "=" 60) ;;
  let algorithm_kwargs :=
    match algorithm_kwargs with
    | None => empty_kwargs       (* if algorithm_kwargs is None *)
    | Some kw => kw
    end in
  emit (Construct (game_rules self) algorithm_kwargs) ;;
  let cfr := algorithm_class (game_rules self) algorithm_kwargs in
  let iterations_list := [] in
  let exploitability_list := [] in
  num_checkpoints <- lift (floordiv total_iterations checkpoint_interval) ;;
  st <- run_blocks checkpoint_interval (range num_checkpoints)
          (cfr, iterations_list, exploitability_list) ;;
  let '(cfr, iterations_list, exploitability_list) := st in
  let data := mk_run_data iterations_list exploitability_list
                          (profile_of cfr) in
  set_result algorithm_name data ;;
  ret data.

(** *** compare_algorithms *)

(** The items of a config tuple. *)
Inductive item : Type :=
| IClass (c : algorithm_class)
| IName (s : string)
| IKwargs (kw : kwargs).

(** A config is a tuple of any length.  The documented ones are
    [(class, name)] and [(class, name, kwargs)].  A tuple of length 2 or 3
    with an item of another kind is outside the documented input: Python
    hands its items to [run_algorithm] as they are, which fails where one
    is first misused, if it is; here such a tuple is cut short as
    [TypeError] before anything is sent out. *)
Definition config : Type := list item.

Definition run_config (cfg : config) (total_iterations checkpoint_interval : Z)
  : M unit :=
  if (List.length cfg =? 2)%nat then
    match cfg with
    | [IClass algorithm_class; IName algorithm_name] =>
        let algorithm_kwargs := empty_kwargs in
        run_algorithm algorithm_class algorithm_name total_iterations
                      checkpoint_interval (Some algorithm_kwargs) ;;
        ret tt
    | _ => lift (Raise TypeError)
    end
  else if (List.length cfg =? 3)%nat then
    match cfg with
    | [IClass algorithm_class; IName algorithm_name; IKwargs algorithm_kwargs] =>
        run_algorithm algorithm_class algorithm_name total_iterations
                      checkpoint_interval (Some algorithm_kwargs) ;;
        ret tt
    | _ => lift (Raise TypeError)
    end
  else lift (Raise ValueError).

Fixpoint compare_algorithms (algorithm_configs : list config)
  (total_iterations checkpoint_interval : Z) : M unit :=
  match algorithm_configs with
  | [] => ret tt
  | cfg :: rest =>
      run_config cfg total_iterations checkpoint_interval ;;
      compare_algorithms rest total_iterations checkpoint_interval
  end.

(** *** print_summary *)

Definition summary_row (entry : string * run_data) : M unit :=
  let '(algorithm_name, data) := entry in
  final_iter <- lift (py_last (iterations data)) ;;
  final_exploit <- lift (py_last (exploitability data)) ;;
  print (SummaryRow algorithm_name final_iter final_exploit).

Fixpoint summary_rows (items : dict run_data) : M unit :=
  match items with
  | [] => ret tt
  | entry :: rest => summary_row entry ;; summary_rows rest
  end.

Definition print_summary : M unit :=
  self <- get_self ;;
  print (Rule "=" 80) ;;
  print (SummaryTitle (game_name self)) ;;
  print (Rule "=" 80) ;;
  print SummaryColumns ;;
  print (Rule "-" 80) ;;
  items <- get_items ;;
  summary_rows items ;;
  print (Rule "=" 80).

(** *** plot_convergence

    The calls on [plt] are recorded in the order they are made.  The one
    call that is given arguments of the caller's making, [plt.plot] with
    the style of the run, is the one that can fail on them. *)

(** [style_config and algorithm_name in style_config] picks the caller's
    style, anything else the default one. *)
Definition pick_style (style_config : option (dict style))
  (algorithm_name : string) : style :=
  match style_config with
  | None => default_style
  | Some cfg =>
      match dict_get algorithm_name cfg with
      | Some st => st
      | None => default_style
      end
  end.

(** [plt.plot(xs, ys, label=algorithm_name, **style)]: a style that has a
    ["label"] key of its own gives the keyword twice and the call raises
    [TypeError] before anything is drawn. *)
Definition plot_curve (style_config : option (dict style))
  (entry : string * run_data) : M unit :=
  let '(algorithm_name, data) := entry in
  let style := pick_style style_config algorithm_name in
  if dict_mem "label" style then lift (Raise TypeError)
  else
    emit (Plt (plot (iterations data) (exploitability data) algorithm_name
                    style)).

Fixpoint plot_curves (style_config : option (dict style))
  (items : dict run_data) : M unit :=
  match items with
  | [] => ret tt
  | entry :: rest =>
      plot_curve style_config entry ;; plot_curves style_config rest
  end.

Definition plot_convergence (save_path : option string) (log_scale : bool)
  (figsize : Z * Z) (style_config : option (dict style)) : M unit :=
  self <- get_self ;;
  emit (Plt (figure figsize)) ;;
  emit (Plt (style_use "seaborn-v0_8-darkgrid")) ;;
  items <- get_items ;;
  plot_curves style_config items ;;
  emit (Plt (xlabel "Iterations")) ;;
  emit (Plt (ylabel "Exploitability")) ;;
  emit (Plt (title (game_name self))) ;;
  emit (Plt legend) ;;
  emit (Plt grid) ;;
  (if log_scale then emit (Plt xscale_log) ;; emit (Plt yscale_log)
   else ret tt) ;;
  emit (Plt tight_layout) ;;
  (match save_path with
   | Some path =>
       if truthy_path save_path
       then emit (Plt (savefig path)) ;; print (PlotSaved path)
       else ret tt
   | None => ret tt
   end) ;;
  emit (Plt show).

(** *** Reading a trace *)

(** The events a call adds to the trace. *)
Definition emitted {A : Type} (m : M A) (w : state) : list event :=
  skipn (List.length (trace w)) (trace (snd (m w))).

(** The arguments of the [cfr.run] calls, in order. *)
Definition run_calls (evs : list event) : list Z :=
  flat_map (fun e => match e with Run n => [n] | _ => [] end) evs.

(** How many iterations the solver was asked for in all. *)
Definition iterations_executed (evs : list event) : Z :=
  fold_right Z.add 0 (run_calls evs).

(** The options of the solver constructions, in order. *)
Definition constructions (evs : list event) : list kwargs :=
  flat_map (fun e => match e with Construct _ kw => [kw] | _ => [] end) evs.

(** The rows of the summary table, in order. *)
Definition summary_table (evs : list event) : list (string * Z * num) :=
  flat_map (fun e => match e with
                     | Print (SummaryRow n it ex) => [(n, it, ex)]
                     | _ => []
                     end) evs.

(** The labels of the plotted curves, in order: the legend. *)
Definition plot_labels (evs : list event) : list string :=
  flat_map (fun e => match e with
                     | Plt (plot _ _ label _) => [label]
                     | _ => []
                     end) evs.

(** *** What a run amounts to *)

(** The options the constructor receives. *)
Definition given_kwargs (algorithm_kwargs : option kwargs) : kwargs :=
  match algorithm_kwargs with
  | None => empty_kwargs
  | Some kw => kw
  end.

(** The solver object once [k] blocks of [interval] iterations have run. *)
Definition solver_after (c : algorithm_class) (r : rules) (kw : kwargs)
  (interval : Z) (k : nat) : solver :=
  Nat.iter k (fun cfr => run cfr interval) (c r kw).

(** The metric of a solver's current profile. *)
Definition metric (cfr : solver) : num :=
  sum (snd (best_response (profile_of cfr))).

(** The three banner lines and the construction that open a run. *)
Definition run_prologue (self : CFRBenchmark) (algorithm_name : string)
  (kw : kwargs) : list event :=
  [Print (Rule "=" 60); Print (Running algorithm_name (game_name self));
   Print (Rule "=" 60); Construct (game_rules self) kw].

(** What block number [k] (from 0) of a run sends out. *)
Definition block_events (c : algorithm_class) (r : rules) (kw : kwargs)
  (interval : Z) (k : nat) : list event :=
  let cfr := solver_after c r kw interval (S k) in
  [Run interval; BestResponse (profile_of cfr);
   Print (Progress ((Z.of_nat k + 1) * interval) (metric cfr))].

(** The recorded data of a run of [n] blocks. *)
Definition run_record (c : algorithm_class) (r : rules) (kw : kwargs)
  (interval : Z) (n : nat) : run_data :=
  mk_run_data
    (map (fun k => (Z.of_nat k + 1) * interval) (seq 0 n))
    (map (fun k => metric (solver_after c r kw interval (S k))) (seq 0 n))
    (profile_of (solver_after c r kw interval n)).

(** [self.results] replaced, the rest of the object kept. *)
Definition with_results (b : CFRBenchmark) (d : dict run_data)
  : CFRBenchmark :=
  mk_benchmark (game_rules b) (game_name b) d.

(** *** What the reports amount to *)

(** The rows [print_summary] gets to print: one per run, up to the first
    run whose last checkpoint cannot be read. *)
Fixpoint printed_rows (items : dict run_data) : list (string * Z * num) :=
  match items with
  | [] => []
  | (algorithm_name, data) :: rest =>
      match py_last (iterations data), py_last (exploitability data) with
      | Ok final_iter, Ok final_exploit =>
          (algorithm_name, final_iter, final_exploit) :: printed_rows rest
      | _, _ => []
      end
  end.

Definition row_event (row : string * Z * num) : event :=
  let '(algorithm_name, final_iter, final_exploit) := row in
  Print (SummaryRow algorithm_name final_iter final_exploit).

(** The five lines above the rows of the summary table. *)
Definition summary_header (self : CFRBenchmark) : list event :=
  [Print (Rule "=" 80); Print (SummaryTitle (game_name self));
   Print (Rule "=" 80); Print SummaryColumns; Print (Rule "-" 80)].

(** The curve drawn for one stored run. *)
Definition curve_event (style_config : option (dict style))
  (entry : string * run_data) : event :=
  Plt (plot (iterations (snd entry)) (exploitability (snd entry)) (fst entry)
            (pick_style style_config (fst entry))).

(** The style chosen for a name carries a ["label"] key. *)
Definition takes_label (style_config : option (dict style)) (name : string)
  : bool :=
  dict_mem "label" (pick_style style_config name).

(** No stored run gets a style with a ["label"] key. *)
Definition label_free (style_config : option (dict style))
  (items : dict run_data) : Prop :=
  Forall (fun entry => takes_label style_config (fst entry) = false) items.

(** The runs [plot_convergence] gets to draw: those at the start of the
    store, up to the first one whose style carries a ["label"] key. *)
Fixpoint drawn (style_config : option (dict style)) (items : dict run_data)
  : dict run_data :=
  match items with
  | [] => []
  | entry :: rest =>
      if takes_label style_config (fst entry) then []
      else entry :: drawn style_config rest
  end.

(** The two documented shapes of a config. *)
Inductive well_formed : config -> algorithm_class -> string -> kwargs -> Prop :=
| wf_pair c name : well_formed [IClass c; IName name] c name empty_kwargs
| wf_triple c name kw : well_formed [IClass c; IName name; IKwargs kw] c name kw.

(** The names of the configs of a batch, in input order. *)
Definition batch_names (algorithm_configs : list config) : list string :=
  flat_map (fun cfg => match cfg with
                       | _ :: IName algorithm_name :: _ => [algorithm_name]
                       | _ => []
                       end) algorithm_configs.

(** *** Sessions *)

(** Every run in the store has as many iteration counts as metrics. *)
Definition balanced (d : dict run_data) : Prop :=
  Forall (fun entry =>
            List.length (iterations (snd entry))
            = List.length (exploitability (snd entry))) d.

(** A run that has a last checkpoint. *)
Definition has_checkpoint (data : run_data) : Prop :=
  iterations data <> [] /\ exploitability data <> [].

(** The states a session can be in: a new benchmark object, then any
    sequence of method calls, whether they return or raise. *)
Inductive session : state -> Prop :=
| session_init (r : rules) (name : string) :
    session (mk_state (init r name) [])
| session_run_algorithm w c name total interval kw :
    session w ->
    session (snd (run_algorithm c name total interval kw w))
| session_compare_algorithms w cfgs total interval :
    session w ->
    session (snd (compare_algorithms cfgs total interval w))
| session_print_summary w :
    session w ->
    session (snd (print_summary w))
| session_plot_convergence w save_path log_scale figsize style_config :
    session w ->
    session (snd (plot_convergence save_path log_scale figsize style_config w)).
End Benchmark.

(** * The scripts around the harness *)
Section Scripts.
Context {SC : Solver}.

(** ** More ways to read a trace *)

(** The curves handed to [plt.plot], in order: x values, y values, label
    and style. *)
Definition plot_calls (evs : list event)
  : list (list Z * list num * string * style) :=
  flat_map (fun e => match e with
                     | Plt (plot xs ys label st) => [(xs, ys, label, st)]
                     | _ => []
                     end) evs.

(** The paths handed to [plt.savefig], in order. *)
Definition saved_paths (evs : list event) : list string :=
  flat_map (fun e => match e with
                     | Plt (savefig path) => [path]
                     | _ => []
                     end) evs.

(** The "Plot saved to" lines the harness prints, in order. *)
Definition saved_notices (evs : list event) : list string :=
  flat_map (fun e => match e with
                     | Print (PlotSaved path) => [path]
                     | _ => []
                     end) evs.

(** Whether an axis was switched to a log scale. *)
Definition sets_xscale (evs : list event) : bool :=
  existsb (fun e => match e with Plt xscale_log => true | _ => false end) evs.

Definition sets_yscale (evs : list event) : bool :=
  existsb (fun e => match e with Plt yscale_log => true | _ => false end) evs.

(** The profiles [best_response()] was called on, in order. *)
Definition best_response_calls (evs : list event) : list profile :=
  flat_map (fun e => match e with BestResponse p => [p] | _ => [] end) evs.

(** The store's order after assigning to [name]: a new name goes last, a
    stored one stays where it is. *)
Definition add_key (ks : list string) (name : string) : list string :=
  if existsb (String.eqb name) ks then ks else ks ++ [name].

(** A config written as a triple: [(class, name)] becomes
    [(class, name, {})]. *)
Definition as_triple (cfg : config) : config :=
  match cfg with
  | [IClass c; IName name] => [IClass c; IName name; IKwargs empty_kwargs]
  | _ => cfg
  end.

(** A config of one of the two documented shapes. *)
Definition documented (cfg : config) : Prop :=
  exists c name kw, well_formed cfg c name kw.

(** What [plot_convergence] sends out once all its curves are drawn. *)
Definition plot_finish (save_path : option string) (log_scale : bool)
  (self : CFRBenchmark) : list event :=
  [Plt (xlabel "Iterations"); Plt (ylabel "Exploitability");
   Plt (title (game_name self)); Plt legend; Plt grid]
  ++ (if log_scale then [Plt xscale_log; Plt yscale_log] else [])
  ++ [Plt tight_layout]
  ++ match save_path with
     | Some path =>
         if truthy_path save_path
         then [Plt (savefig path); Print (PlotSaved path)]
         else []
     | None => []
     end
  ++ [Plt show].

(** Whether every stored run gets drawn. *)
Definition all_drawn (style_config : option (dict style))
  (items : dict run_data) : bool :=
  (List.length (drawn style_config items) =? List.length items)%nat.

(** Everything [plot_convergence] sends out, in order: the figure, the
    curves it gets to draw and, if those are all, the rest. *)
Definition plot_events (save_path : option string) (log_scale : bool)
  (figsize : Z * Z) (style_config : option (dict style)) (self : CFRBenchmark)
  : list event :=
  [Plt (figure figsize); Plt (style_use "seaborn-v0_8-darkgrid")]
  ++ map (curve_event style_config) (drawn style_config (results self))
  ++ (if all_drawn style_config (results self)
      then plot_finish save_path log_scale self else []).

(** The row of the summary table for a stored run that has a last
    checkpoint. *)
Definition summary_row_of (entry : string * run_data) : string * Z * num :=
  (fst entry, last (iterations (snd entry)) 0,
   last (exploitability (snd entry)) num_zero).

(** The curve of a stored run: its two sequences, its name, its style. *)
Definition curve_of (style_config : option (dict style))
  (entry : string * run_data) : list Z * list num * string * style :=
  (iterations (snd entry), exploitability (snd entry), fst entry,
   pick_style style_config (fst entry)).

(** ** run_comparison.py *)

(** What [main] itself prints. *)
Inductive script_line : Type :=
| SettingUp
| RunningAlgorithms (count : nat) (total_iterations : Z)
| CheckpointsEvery (checkpoint_interval : Z)
| Separator
| GeneratingPlot
| PlotSavedTo (path : string)
| BenchmarkComplete.

(** The script's own lines and what the harness sends out, in one
    chronological list. *)
Inductive script_event : Type :=
| Said (l : script_line)
| Did (e : event).

(** The harness events of a script run. *)
Definition harness_events (out : list script_event) : list event :=
  flat_map (fun e => match e with Did e => [e] | Said _ => [] end) out.

(** The script's own lines of a script run. *)
Definition script_lines (out : list script_event) : list script_line :=
  flat_map (fun e => match e with Said l => [l] | Did _ => [] end) out.

(** The script holds the benchmark object and the output so far. *)
Definition script (A : Type) : Type :=
  CFRBenchmark * list script_event
  -> result A * (CFRBenchmark * list script_event).

Definition say (l : script_line) : script unit :=
  fun st => (Ok tt, (fst st, snd st ++ [Said l])).

(** A method call on the benchmark object: what it sends out goes to the
    output, what it leaves of the object is kept. *)
Definition call {A : Type} (m : M A) : script A :=
  fun st =>
    let '(r, w) := m (mk_state (fst st) []) in
    (r, (bench w, snd st ++ map Did (trace w))).

Definition then_ {A B : Type} (m : script A) (k : A -> script B) : script B :=
  fun st =>
    match m st with
    | (Ok a, st') => k a st'
    | (Raise e, st') => (Raise e, st')
    end.

Section Main.
(** The names the script imports from [pokergames] and [pokercfr]. *)
Variable leduc_rules : rules.
Variables OutcomeSamplingCFR RetrospectiveSamplingCFR : algorithm_class.
(** [{'lookback_depth': k}] *)
Variable lookback_depth : Z -> kwargs.

Definition algorithms : list config :=
  [ [IClass OutcomeSamplingCFR; IName "Outcome Sampling CFR";
     IKwargs empty_kwargs];
    [IClass RetrospectiveSamplingCFR; IName "RS-CFR (k=1)";
     IKwargs (lookback_depth 1)];
    [IClass RetrospectiveSamplingCFR; IName "RS-CFR (k=2)";
     IKwargs (lookback_depth 2)];
    [IClass RetrospectiveSamplingCFR; IName "RS-CFR (k=3)";
     IKwargs (lookback_depth 3)] ].

Definition main : result unit * list script_event :=
  let total_iterations := 1000000 in
  let checkpoint_interval := 10000 in
  let body :=
    then_ (say (RunningAlgorithms (List.length algorithms) total_iterations))
      (fun _ =>
    then_ (say (CheckpointsEvery checkpoint_interval)) (fun _ =>
    then_ (call (compare_algorithms algorithms total_iterations
                                    checkpoint_interval)) (fun _ =>
    then_ (say Separator) (fun _ =>
    then_ (call print_summary) (fun _ =>
    then_ (say GeneratingPlot) (fun _ =>
    then_ (call (plot_convergence (Some "results/leduc_comparison.png"%string)
                                  true (10, 6) None)) (fun _ =>
    then_ (say (PlotSavedTo "results/leduc_comparison.png")) (fun _ =>
    say BenchmarkComplete)))))))) in
  (* print("Setting up..."); benchmark = CFRBenchmark(leduc_rules(), ...) *)
  let '(r, st) := body (init leduc_rules "Leduc Poker", [Said SettingUp]) in
  (r, snd st).
End Main.

(** ** tests/test_rscfr.py *)

Inductive test_line : Type :=
| Blank
| TestingRS
| ComputingNE
| Iterations (count : Z)
| BestResponseEV (values : list num)
| TotalExploitability (value : num)
| Done.

Inductive test_event : Type :=
| TPrint (l : test_line)
| TConstruct (r : rules)
| TRun (n : Z)
| TBestResponse (p : profile).

(** The body of [for block in range(blocks)], for each block in turn. *)
Fixpoint test_blocks (iterations_per_block : Z) (blocks : list Z)
  (cfr : solver) : list test_event :=
  match blocks with
  | [] => []
  | block :: rest =>
      let cfr' := run cfr iterations_per_block in
      let result := best_response (profile_of cfr') in
      [TPrint (Iterations (block * iterations_per_block));
       TRun iterations_per_block;
       TBestResponse (profile_of cfr');
       TPrint (BestResponseEV (snd result));
       TPrint (TotalExploitability (sum (snd result)))]
      ++ test_blocks iterations_per_block rest cfr'
  end.

(** The test script, with the block size and count it sets as arguments. *)
Definition test_script (leduc : rules) (RetrospectiveSamplingCFR : algorithm_class)
  (iterations_per_block blocks : Z) : list test_event :=
  [TPrint Blank; TPrint Blank; TPrint TestingRS; TPrint Blank; TPrint Blank;
   TPrint ComputingNE; TConstruct leduc]
  ++ test_blocks iterations_per_block (range blocks)
                 (RetrospectiveSamplingCFR leduc empty_kwargs)
  ++ [TPrint Done; TPrint Blank].

(** [tests/test_rscfr.py] as it stands. *)
Definition test_rscfr (leduc : rules) (RetrospectiveSamplingCFR : algorithm_class)
  : list test_event :=
  test_script leduc RetrospectiveSamplingCFR 1000 10.

(** The numbers after "Iterations:", in order. *)
Definition iteration_labels (out : list test_event) : list Z :=
  flat_map (fun e => match e with TPrint (Iterations n) => [n] | _ => [] end) out.

(** The numbers after "Total exploitability:", in order. *)
Definition exploitability_totals (out : list test_event) : list num :=
  flat_map (fun e => match e with
                     | TPrint (TotalExploitability x) => [x]
                     | _ => []
                     end) out.

(** The arguments of the script's [cfr.run] calls, in order. *)
Definition test_run_calls (out : list test_event) : list Z :=
  flat_map (fun e => match e with TRun n => [n] | _ => [] end) out.

(** The calls made on a solver once it is built: [cfr.run(n)] and
    [cfr.profile.best_response()]. *)
Inductive solver_call : Type :=
| CallRun (n : Z)
| CallBestResponse.

(** The calls [run_algorithm] makes on its solver, in order. *)
Definition solver_calls (evs : list event) : list solver_call :=
  flat_map (fun e => match e with
                     | Run n => [CallRun n]
                     | BestResponse _ => [CallBestResponse]
                     | _ => []
                     end) evs.

(** The calls the test script makes on its solver, in order. *)
Definition test_solver_calls (out : list test_event) : list solver_call :=
  flat_map (fun e => match e with
                     | TRun n => [CallRun n]
                     | TBestResponse _ => [CallBestResponse]
                     | _ => []
                     end) out.
End Scripts.

(** * Facts about the embedding *)

(** ** Dictionaries *)
Section DictFacts.
Context {V : Type}.
Implicit Types (d : dict V) (k : string) (v : V).

Lemma dict_get_set_same k v d : dict_get k (dict_set k v d) = Some v.
Proof.
  induction d as [|[k' v'] d IH]; simpl.
  - now rewrite String.eqb_refl.
  - destruct (String.eqb k k') eqn:E; simpl.
    + now rewrite String.eqb_refl.
    + now rewrite E.
Qed.

Lemma dict_get_set_other k k' v d :
  k <> k' -> dict_get k' (dict_set k v d) = dict_get k' d.
Proof.
  intros Hne. induction d as [|[k0 v0] d IH]; simpl.
  - destruct (String.eqb k' k) eqn:E; [|reflexivity].
    apply String.eqb_eq in E. congruence.
  - destruct (String.eqb k k0) eqn:E; simpl.
    + apply String.eqb_eq in E. subst k0.
      destruct (String.eqb k' k) eqn:E'; [|reflexivity].
      apply String.eqb_eq in E'. congruence.
    + now rewrite IH.
Qed.

Lemma dict_get_In k v d : dict_get k d = Some v -> In (k, v) d.
Proof.
  induction d as [|[k' v'] d IH]; simpl; [discriminate|].
  destruct (String.eqb k k') eqn:E.
  - apply String.eqb_eq in E. intros [= ->]. subst. now left.
  - intros H. right. now apply IH.
Qed.

Lemma dict_mem_keys k d : dict_mem k d = true <-> In k (keys d).
Proof.
  unfold dict_mem. induction d as [|[k' v'] d IH]; simpl.
  - split; [discriminate | tauto].
  - destruct (String.eqb k k') eqn:E.
    + apply String.eqb_eq in E. subst. split; auto.
    + apply String.eqb_neq in E. rewrite IH. split; [auto|].
      intros [H|H]; [congruence | exact H].
Qed.

Lemma dict_mem_false_keys k d : dict_mem k d = false <-> ~ In k (keys d).
Proof.
  rewrite <- dict_mem_keys. destruct (dict_mem k d); split; congruence.
Qed.

(** Assigning to a key that is present keeps the iteration order. *)
Lemma keys_dict_set_old k v d :
  In k (keys d) -> keys (dict_set k v d) = keys d.
Proof.
  induction d as [|[k' v'] d IH]; simpl; [tauto|].
  intros H. destruct (String.eqb k k') eqn:E; simpl.
  - apply String.eqb_eq in E. now subst.
  - apply String.eqb_neq in E. f_equal. apply IH.
    destruct H as [H|H]; [congruence | exact H].
Qed.

(** Assigning to a new key puts it last. *)
Lemma keys_dict_set_new k v d :
  ~ In k (keys d) -> keys (dict_set k v d) = keys d ++ [k].
Proof.
  induction d as [|[k' v'] d IH]; simpl; [reflexivity|].
  intros H. destruct (String.eqb k k') eqn:E; simpl.
  - apply String.eqb_eq in E. subst. tauto.
  - f_equal. apply IH. tauto.
Qed.

Lemma dict_set_length_le k v d :
  (List.length d <= List.length (dict_set k v d))%nat.
Proof.
  induction d as [|[k' v'] d IH]; simpl; [lia|].
  destruct (String.eqb k k'); simpl; lia.
Qed.

Lemma dict_set_Forall (P : string * V -> Prop) k v d :
  P (k, v) -> Forall P d -> Forall P (dict_set k v d).
Proof.
  intros Hkv. induction 1 as [|[k' v'] d Hx Hd IH]; simpl.
  - auto.
  - destruct (String.eqb k k'); auto.
Qed.
End DictFacts.

(** ** Python primitives *)

Lemma py_last_app {A : Type} (xs : list A) (x : A) :
  py_last (xs ++ [x]) = Ok x.
Proof.
  induction xs as [|y xs IH]; [reflexivity|].
  simpl. destruct (xs ++ [x]) eqn:E; [|exact IH].
  destruct xs; discriminate.
Qed.

Lemma py_last_nonempty {A : Type} (xs : list A) (dflt : A) :
  xs <> [] -> py_last xs = Ok (last xs dflt).
Proof.
  induction xs as [|y xs IH]; [congruence|]. intros _.
  destruct xs as [|z xs]; [reflexivity|].
  change (py_last (z :: xs) = Ok (last (z :: xs) dflt)).
  apply IH. discriminate.
Qed.

Lemma py_last_raise {A : Type} (xs : list A) (e : exn) :
  py_last xs = Raise e -> xs = [] /\ e = IndexError.
Proof.
  induction xs as [|x xs IH]; cbn.
  - intros [= <-]. auto.
  - destruct xs as [|y xs]; [discriminate|].
    intros H. destruct (IH H) as [? _]. discriminate.
Qed.

Lemma py_last_ok {A : Type} (xs : list A) (x dflt : A) :
  py_last xs = Ok x -> xs <> [] /\ x = last xs dflt.
Proof.
  intros H. assert (Hne : xs <> []) by (destruct xs; [discriminate|congruence]).
  split; [exact Hne|].
  rewrite (py_last_nonempty xs dflt Hne) in H. congruence.
Qed.

Lemma range_length (n : Z) : List.length (range n) = Z.to_nat n.
Proof. unfold range. now rewrite length_map, length_seq. Qed.

(** ** The runner *)
Section RunnerFacts.
Context {SC : Solver}.

Lemma emitted_app {A : Type} (m : M A) (w : state) (evs : list event) :
  trace (snd (m w)) = trace w ++ evs -> emitted m w = evs.
Proof.
  intros H. unfold emitted. rewrite H.
  rewrite skipn_app, skipn_all, Nat.sub_diag. reflexivity.
Qed.

(** The monad's equations, for stepping through a method. *)
Lemma bind_ret {A B : Type} (a : A) (k : A -> M B) (w : state) :
  bind (ret a) k w = k a w.
Proof. reflexivity. Qed.

Lemma bind_emit {B : Type} (e : event) (k : unit -> M B) (w : state) :
  bind (emit e) k w = k tt (mk_state (bench w) (trace w ++ [e])).
Proof. reflexivity. Qed.

Lemma bind_print {B : Type} (l : line) (k : unit -> M B) (w : state) :
  bind (print l) k w = k tt (mk_state (bench w) (trace w ++ [Print l])).
Proof. reflexivity. Qed.

Lemma bind_get_self {B : Type} (k : CFRBenchmark -> M B) (w : state) :
  bind get_self k w = k (bench w) w.
Proof. reflexivity. Qed.

Lemma bind_get_items {B : Type} (k : dict run_data -> M B) (w : state) :
  bind get_items k w = k (results (bench w)) w.
Proof. reflexivity. Qed.

Lemma bind_lift_ok {A B : Type} (a : A) (k : A -> M B) (w : state) :
  bind (lift (Ok a)) k w = k a w.
Proof. reflexivity. Qed.

Lemma bind_lift_raise {A B : Type} (e : exn) (k : A -> M B) (w : state) :
  bind (lift (Raise e)) k w = (Raise e, w).
Proof. reflexivity. Qed.

Lemma bind_assoc {A B C : Type} (m : M A) (k : A -> M B) (h : B -> M C)
  (w : state) :
  bind (bind m k) h w = bind m (fun a => bind (k a) h) w.
Proof. unfold bind. destruct (m w) as [[a|e] w']; reflexivity. Qed.

Lemma state_eta (w : state) : mk_state (bench w) (trace w) = w.
Proof. now destruct w. Qed.

Lemma benchmark_eta (b : CFRBenchmark) : with_results b (results b) = b.
Proof. now destruct b. Qed.

Lemma run_calls_app (xs ys : list event) :
  run_calls (xs ++ ys) = run_calls xs ++ run_calls ys.
Proof. apply flat_map_app. Qed.

Lemma constructions_app (xs ys : list event) :
  constructions (xs ++ ys) = constructions xs ++ constructions ys.
Proof. apply flat_map_app. Qed.

Lemma iter_run_shift (interval : Z) (k : nat) (cfr : solver) :
  Nat.iter k (fun s => run s interval) (run cfr interval)
  = Nat.iter (S k) (fun s => run s interval) cfr.
Proof.
  induction k as [|k IH]; [reflexivity|].
  simpl. now rewrite IH.
Qed.

(** The loop from block [a] on, [n] blocks, started on any solver object
    and any pair of lists. *)
Lemma run_blocks_from (interval : Z) (n a : nat) (cfr : solver)
  (its : list Z) (exs : list num) (w : state) :
  run_blocks interval (map Z.of_nat (seq a n)) (cfr, its, exs) w
  = (Ok (Nat.iter n (fun s => run s interval) cfr,
         its ++ map (fun k => (Z.of_nat k + 1) * interval) (seq a n),
         exs ++ map (fun j => metric (Nat.iter (S j) (fun s => run s interval) cfr))
                    (seq 0 n)),
     mk_state (bench w)
       (trace w ++
        flat_map (fun j =>
                    let cfr' := Nat.iter (S j) (fun s => run s interval) cfr in
                    [Run interval; BestResponse (profile_of cfr');
                     Print (Progress ((Z.of_nat (a + j) + 1) * interval)
                                     (metric cfr'))])
                 (seq 0 n))).
Proof.
  revert a cfr its exs w.
  induction n as [|n IH]; intros a cfr its exs w.
  - simpl. unfold ret. rewrite !app_nil_r. now destruct w.
  - cbn [seq map run_blocks]. unfold bind at 1.
    unfold run_block, bind, emit, print, ret; cbn [bench trace emit].
    rewrite IH. cbn [bench trace].
    fold (metric (run cfr interval)).
    rewrite <- (seq_shift n 0). cbn [flat_map Nat.iter].
    rewrite map_map, (flat_map_concat_map _ (map S _)), map_map,
      <- flat_map_concat_map.
    rewrite <- !app_assoc. cbn [app].
    rewrite Nat.add_0_r, iter_run_shift.
    f_equal; [f_equal; f_equal|f_equal; f_equal; do 3 f_equal].
    + do 2 f_equal. apply map_ext. intros j. now rewrite iter_run_shift.
    + apply flat_map_ext. intros j. rewrite iter_run_shift.
      now replace (S a + j)%nat with (a + S j)%nat by lia.
Qed.

(** A run with a non-zero interval returns, and this is all it does. *)
Lemma run_algorithm_ok c name total interval kw w :
  interval <> 0 ->
  let self := bench w in
  let n := Z.to_nat (total / interval) in
  let data := run_record c (game_rules self) (given_kwargs kw) interval n in
  run_algorithm c name total interval kw w
  = (Ok data,
     mk_state (with_results self (dict_set name data (results self)))
       (trace w ++ run_prologue self name (given_kwargs kw)
                ++ flat_map (block_events c (game_rules self) (given_kwargs kw) interval)
                            (seq 0 n))).
Proof.
  intros Hi self n data.
  unfold run_algorithm, bind at 1, get_self.
  unfold bind at 1, print, emit; cbn [bench trace].
  unfold bind at 1; cbn [bench trace].
  unfold bind at 1; cbn [bench trace].
  unfold bind at 1; cbn [bench trace].
  unfold bind at 1, lift, floordiv.
  destruct (interval =? 0) eqn:E; [apply Z.eqb_eq in E; contradiction|].
  unfold bind at 1, range. rewrite run_blocks_from. cbn [app].
  unfold bind, set_result, ret; cbn [bench trace].
  fold self. fold (given_kwargs kw). fold n.
  f_equal. f_equal.
  rewrite <- !app_assoc. cbn [app]. reflexivity.
Qed.

(** With a zero interval the solver is built and the division raises. *)
Lemma run_algorithm_zero c name total kw w :
  run_algorithm c name total 0 kw w
  = (Raise ZeroDivisionError,
     mk_state (bench w)
       (trace w ++ run_prologue (bench w) name (given_kwargs kw))).
Proof.
  unfold run_algorithm, bind, get_self, print, emit, lift, floordiv;
    cbn [bench trace Z.eqb].
  rewrite <- !app_assoc. reflexivity.
Qed.
End RunnerFacts.

(** ** The reports *)
Section ReportFacts.
Context {SC : Solver}.

Lemma summary_table_app (xs ys : list event) :
  summary_table (xs ++ ys) = summary_table xs ++ summary_table ys.
Proof. apply flat_map_app. Qed.

Lemma plot_labels_app (xs ys : list event) :
  plot_labels (xs ++ ys) = plot_labels xs ++ plot_labels ys.
Proof. apply flat_map_app. Qed.

Lemma summary_table_rows (rows : list (string * Z * num)) :
  summary_table (map row_event rows) = rows.
Proof.
  unfold summary_table.
  induction rows as [|[[n a] b] rows IH]; [reflexivity|].
  cbn [map flat_map row_event app]. now rewrite IH.
Qed.

Lemma plot_labels_curves (sc : option (dict style)) (items : dict run_data) :
  plot_labels (map (curve_event sc) items) = keys items.
Proof.
  unfold plot_labels, keys.
  induction items as [|[n d] items IH]; [reflexivity|].
  cbn [map flat_map curve_event app fst]. now rewrite IH.
Qed.

(** The loop of [print_summary]: it prints [printed_rows], touches nothing
    else, and returns exactly when every run has its last checkpoint. *)
Lemma summary_rows_spec (items : dict run_data) (w : state) :
  summary_rows items w
  = (if (List.length (printed_rows items) =? List.length items)%nat
     then Ok tt else Raise IndexError,
     mk_state (bench w) (trace w ++ map row_event (printed_rows items))).
Proof.
  revert w. induction items as [|[n d] items IH]; intros w.
  - cbn. unfold ret. now rewrite app_nil_r, state_eta.
  - cbn [summary_rows printed_rows]. unfold bind at 1, summary_row.
    destruct (py_last (iterations d)) as [a|e] eqn:Ea.
    + rewrite bind_lift_ok.
      destruct (py_last (exploitability d)) as [b|e] eqn:Eb.
      * rewrite bind_lift_ok. unfold print, emit. rewrite IH.
        cbn [bench trace List.length map Nat.eqb row_event].
        now rewrite <- app_assoc.
      * rewrite bind_lift_raise.
        apply py_last_raise in Eb as [_ ->].
        cbn. now rewrite app_nil_r, state_eta.
    + rewrite bind_lift_raise.
      apply py_last_raise in Ea as [_ ->].
      cbn. now rewrite app_nil_r, state_eta.
Qed.

Lemma printed_rows_length (items : dict run_data) :
  (List.length (printed_rows items) <= List.length items)%nat.
Proof.
  induction items as [|[n d] items IH]; cbn; [lia|].
  destruct (py_last (iterations d)), (py_last (exploitability d)); cbn; lia.
Qed.

(** Every run has a last checkpoint: one row per run, in order. *)
Lemma printed_rows_all (items : dict run_data) :
  Forall (fun entry => has_checkpoint (snd entry)) items ->
  printed_rows items
  = map (fun entry => (fst entry, last (iterations (snd entry)) 0,
                       last (exploitability (snd entry)) num_zero)) items.
Proof.
  induction 1 as [|[n d] items [Hi He] _ IH]; [reflexivity|].
  cbn [printed_rows map fst snd] in *.
  rewrite (py_last_nonempty _ 0 Hi), (py_last_nonempty _ num_zero He).
  now rewrite IH.
Qed.

(** A run without iteration counts stops the table short. *)
Lemma printed_rows_gap (items : dict run_data) :
  Exists (fun entry => iterations (snd entry) = []) items ->
  (List.length (printed_rows items) < List.length items)%nat.
Proof.
  induction 1 as [[n d] items H|[n d] items _ IH]; cbn in *.
  - rewrite H. cbn. lia.
  - destruct (py_last (iterations d)), (py_last (exploitability d)); cbn; lia.
Qed.

(** The table never shows the name of a stored run without iteration
    counts. *)
Lemma printed_rows_skip (name : string) (data : run_data)
  (items : dict run_data) :
  dict_get name items = Some data -> iterations data = [] ->
  ~ In name (map (fun row => fst (fst row)) (printed_rows items)).
Proof.
  intros Hget Hempty.
  induction items as [|[n d] items IH]; cbn in *; [tauto|].
  destruct (String.eqb name n) eqn:E.
  - injection Hget as ->. rewrite Hempty. cbn. tauto.
  - apply String.eqb_neq in E.
    destruct (py_last (iterations d)), (py_last (exploitability d));
      cbn; try tauto.
    intros [H|H]; [congruence | now apply IH].
Qed.

(** [print_summary], in full. *)
Lemma print_summary_spec (w : state) :
  let items := results (bench w) in
  let complete :=
    (List.length (printed_rows items) =? List.length items)%nat in
  print_summary w
  = (if complete then Ok tt else Raise IndexError,
     mk_state (bench w)
       (trace w ++ summary_header (bench w)
                ++ map row_event (printed_rows items)
                ++ (if complete then [Print (Rule "=" 80)] else []))).
Proof.
  intros items complete.
  unfold print_summary. rewrite bind_get_self, !bind_print, bind_get_items.
  cbn [bench trace]. unfold bind. rewrite summary_rows_spec.
  fold items. fold complete. cbn [bench trace].
  destruct complete; unfold print, emit; cbn [bench trace];
    rewrite <- ?app_assoc; cbn [app summary_header];
    rewrite ?app_nil_r; reflexivity.
Qed.

(** With a stored run that has no iteration counts it raises. *)
Lemma print_summary_raises (w : state) :
  Exists (fun entry => iterations (snd entry) = []) (results (bench w)) ->
  fst (print_summary w) = Raise IndexError.
Proof.
  intros Hgap. apply printed_rows_gap in Hgap.
  rewrite print_summary_spec. cbn [fst].
  destruct (Nat.eqb_spec (List.length (printed_rows (results (bench w))))
                         (List.length (results (bench w)))); [lia|reflexivity].
Qed.

Lemma drawn_length (sc : option (dict style)) (items : dict run_data) :
  (List.length (drawn sc items) <= List.length items)%nat.
Proof.
  induction items as [|entry items IH]; cbn; [lia|].
  destruct (takes_label sc (fst entry)); cbn; lia.
Qed.

Lemma drawn_all (sc : option (dict style)) (items : dict run_data) :
  label_free sc items -> drawn sc items = items.
Proof.
  induction 1 as [|entry items H _ IH]; [reflexivity|].
  cbn. now rewrite H, IH.
Qed.

Lemma all_drawn_label_free (sc : option (dict style)) (items : dict run_data) :
  all_drawn sc items = true <-> label_free sc items.
Proof.
  unfold all_drawn. rewrite Nat.eqb_eq. split.
  - induction items as [|entry items IH]; intros H; [constructor|].
    cbn in H. destruct (takes_label sc (fst entry)) eqn:E; [discriminate|].
    constructor; [exact E|]. apply IH. cbn in H. lia.
  - intros H. now rewrite drawn_all.
Qed.

(** The runs drawn are those at the start of the store, up to the first
    one whose style brings a label of its own. *)
Lemma drawn_prefix (sc : option (dict style)) (items : dict run_data) :
  let k := List.length (drawn sc items) in
  drawn sc items = firstn k items
  /\ label_free sc (firstn k items)
  /\ ((k < List.length items)%nat ->
      exists entry, nth_error items k = Some entry
                    /\ takes_label sc (fst entry) = true).
Proof.
  induction items as [|entry items IH]; cbn zeta.
  - cbn. repeat split; [constructor|lia].
  - cbn [drawn]. destruct (takes_label sc (fst entry)) eqn:E.
    + cbn. repeat split; [constructor|]. intros _.
      exists entry. now split.
    + cbn [List.length firstn]. cbn zeta in IH.
      destruct IH as (IH1 & IH2 & IH3).
      split; [now rewrite <- IH1|]. split.
      * constructor; [exact E|exact IH2].
      * intros Hlt. cbn [nth_error]. apply IH3. cbn [List.length] in Hlt. lia.
Qed.

(** The loop of [plot_convergence]: one curve per stored run, until a
    style brings a label of its own. *)
Lemma plot_curves_spec (sc : option (dict style)) (items : dict run_data)
  (w : state) :
  plot_curves sc items w
  = (if all_drawn sc items then Ok tt else Raise TypeError,
     mk_state (bench w) (trace w ++ map (curve_event sc) (drawn sc items))).
Proof.
  revert w. induction items as [|[n d] items IH]; intros w.
  - cbn. unfold ret. now rewrite app_nil_r, state_eta.
  - cbn [plot_curves drawn fst]. unfold plot_curve, all_drawn.
    cbn [drawn fst]. fold (takes_label sc n).
    destruct (takes_label sc n).
    + rewrite bind_lift_raise. cbn. now rewrite app_nil_r, state_eta.
    + rewrite bind_emit, IH. cbn [bench trace map List.length Nat.eqb].
      unfold all_drawn. now rewrite <- app_assoc.
Qed.

(** [plot_convergence] leaves the object alone; its curves are those of
    the stored runs it gets to draw, in the store's order; it returns
    when it draws them all and raises [TypeError] otherwise. *)
Lemma plot_convergence_spec save_path log_scale figsize sc (w : state) :
  exists before after,
    plot_convergence save_path log_scale figsize sc w
    = (if all_drawn sc (results (bench w)) then Ok tt else Raise TypeError,
       mk_state (bench w)
         (trace w ++ before
                  ++ map (curve_event sc) (drawn sc (results (bench w)))
                  ++ after))
    /\ plot_labels before = [] /\ plot_labels after = []
    /\ plot_calls before = [] /\ plot_calls after = [].
Proof.
  unfold plot_convergence.
  rewrite bind_get_self, !bind_emit, bind_get_items. cbn [bench trace].
  unfold bind at 1. rewrite plot_curves_spec.
  exists [Plt (figure figsize); Plt (style_use "seaborn-v0_8-darkgrid")].
  destruct (all_drawn sc (results (bench w))).
  - rewrite !bind_emit. cbn [bench trace].
    destruct log_scale, save_path as [path|];
      try destruct (truthy_path (Some path)) eqn:Et;
      unfold bind; rewrite ?Et; unfold emit, print, ret, emit;
      cbn [bench trace]; rewrite <- !app_assoc; cbn [app];
      eexists; (split; [reflexivity|repeat split]).
  - exists []. cbn [bench trace]. rewrite <- !app_assoc. cbn [app].
    rewrite app_nil_r. repeat split.
Qed.

Lemma plot_calls_app (xs ys : list event) :
  plot_calls (xs ++ ys) = plot_calls xs ++ plot_calls ys.
Proof. apply flat_map_app. Qed.

Lemma plot_calls_curves sc (items : dict run_data) :
  plot_calls (map (curve_event sc) items) = map (curve_of sc) items.
Proof.
  unfold plot_calls.
  induction items as [|[n d] items IH]; [reflexivity|].
  cbn [map flat_map curve_event app]. now rewrite IH.
Qed.
End ReportFacts.

(** ** The batch driver *)
Section BatchFacts.
Context {SC : Solver}.

Lemma run_record_balanced c r kw interval n :
  List.length (iterations (run_record c r kw interval n))
  = List.length (exploitability (run_record c r kw interval n)).
Proof. cbn. now rewrite !length_map. Qed.

Lemma run_algorithm_balanced c name total interval kw w :
  balanced (results (bench w)) ->
  balanced (results (bench (snd (run_algorithm c name total interval kw w)))).
Proof.
  intros Hw. destruct (Z.eq_dec interval 0) as [->|Hi].
  - now rewrite run_algorithm_zero.
  - rewrite run_algorithm_ok by assumption. cbn [snd bench results with_results].
    apply dict_set_Forall; [apply run_record_balanced | exact Hw].
Qed.

(** What one entry of the batch does, by the shape of the config. *)
Lemma run_config_cases cfg total interval w :
  (exists c name kw,
     well_formed cfg c name kw
     /\ run_config cfg total interval w
        = bind (run_algorithm c name total interval (Some kw))
               (fun _ => ret tt) w)
  \/ (exists e, run_config cfg total interval w = (Raise e, w)).
Proof.
  unfold run_config.
  destruct cfg as [|[c| |] [|[|name|] [|[| |kw] [|? ?]]]];
    cbn [List.length Nat.eqb];
    try (right; eexists; reflexivity);
    left; do 3 eexists; (split; [constructor|reflexivity]).
Qed.

(** A tuple that has neither two nor three items raises on the spot. *)
Lemma run_config_arity cfg total interval w :
  List.length cfg <> 2%nat -> List.length cfg <> 3%nat ->
  run_config cfg total interval w = (Raise ValueError, w).
Proof.
  intros H2 H3. unfold run_config.
  destruct (Nat.eqb_spec (List.length cfg) 2); [contradiction|].
  destruct (Nat.eqb_spec (List.length cfg) 3); [contradiction|].
  reflexivity.
Qed.

(** An entry that returns was a documented config with a non-zero interval,
    and its run stored its record under its name. *)
Lemma run_config_ok cfg total interval w w' :
  run_config cfg total interval w = (Ok tt, w') ->
  exists c name kw,
    well_formed cfg c name kw /\ interval <> 0
    /\ w' = snd (run_algorithm c name total interval (Some kw) w)
    /\ results (bench w')
       = dict_set name
           (run_record c (game_rules (bench w)) kw interval
                       (Z.to_nat (total / interval)))
           (results (bench w)).
Proof.
  intros H.
  destruct (run_config_cases cfg total interval w)
    as [(c & name & kw & Hwf & E)|[e E]]; rewrite E in H; [|discriminate].
  exists c, name, kw. split; [exact Hwf|].
  destruct (Z.eq_dec interval 0) as [->|Hi].
  - unfold bind in H. rewrite run_algorithm_zero in H. discriminate.
  - split; [exact Hi|]. unfold bind in H.
    rewrite run_algorithm_ok in * by assumption.
    cbn [snd given_kwargs] in *. injection H as <-.
    split; reflexivity.
Qed.

Lemma run_config_balanced cfg total interval w :
  balanced (results (bench w)) ->
  balanced (results (bench (snd (run_config cfg total interval w)))).
Proof.
  intros Hw.
  destruct (run_config_cases cfg total interval w)
    as [(c & name & kw & _ & E)|[e E]]; rewrite E; [|exact Hw].
  pose proof (run_algorithm_balanced c name total interval (Some kw) w Hw) as H.
  unfold bind, ret.
  now destruct (run_algorithm c name total interval (Some kw) w) as [[d|e] w1].
Qed.

Lemma compare_algorithms_balanced cfgs total interval w :
  balanced (results (bench w)) ->
  balanced (results (bench (snd (compare_algorithms cfgs total interval w)))).
Proof.
  revert w. induction cfgs as [|cfg cfgs IH]; intros w Hw; [exact Hw|].
  cbn [compare_algorithms]. unfold bind.
  pose proof (run_config_balanced cfg total interval w Hw) as H.
  destruct (run_config cfg total interval w) as [[[]|e] w1]; cbn [snd] in *.
  - now apply IH.
  - exact H.
Qed.

(** The batch is run entry by entry: a batch split in two is the first
    part, then the second part if the first returned. *)
Lemma compare_algorithms_app pre post total interval w :
  compare_algorithms (pre ++ post) total interval w
  = bind (compare_algorithms pre total interval)
         (fun _ => compare_algorithms post total interval) w.
Proof.
  revert w. induction pre as [|cfg pre IH]; intros w; [reflexivity|].
  cbn [app compare_algorithms]. rewrite bind_assoc.
  unfold bind at 1 2.
  destruct (run_config cfg total interval w) as [[[]|e] w1]; [apply IH|reflexivity].
Qed.

(** A batch that returns adds its new names to the end of the store, in
    input order. *)
Lemma compare_algorithms_keys cfgs total interval w w' :
  compare_algorithms cfgs total interval w = (Ok tt, w') ->
  NoDup (batch_names cfgs) ->
  (forall name, In name (batch_names cfgs) ->
                ~ In name (keys (results (bench w)))) ->
  keys (results (bench w')) = keys (results (bench w)) ++ batch_names cfgs.
Proof.
  revert w. induction cfgs as [|cfg cfgs IH]; intros w Hrun Hnd Hnew.
  - injection Hrun as <-. cbn. now rewrite app_nil_r.
  - cbn [compare_algorithms] in Hrun. unfold bind in Hrun.
    destruct (run_config cfg total interval w) as [[[]|e] w1] eqn:E;
      [|discriminate].
    apply run_config_ok in E as (c & name & kw & Hwf & _ & _ & Hres).
    assert (Hnames : batch_names (cfg :: cfgs) = name :: batch_names cfgs)
      by (destruct Hwf; reflexivity).
    rewrite Hnames in *. inversion Hnd as [|? ? Hhead Htail]; subst.
    assert (Hkeys : keys (results (bench w1))
                    = keys (results (bench w)) ++ [name]).
    { rewrite Hres. apply keys_dict_set_new. apply Hnew. now left. }
    rewrite (IH w1 Hrun Htail).
    + rewrite Hkeys, <- app_assoc. reflexivity.
    + intros n Hn. rewrite Hkeys, in_app_iff. intros [H|[->|[]]].
      * apply (Hnew n); [now right | exact H].
      * contradiction.
Qed.
End BatchFacts.

(** ** What each method sends out *)
Section EmittedFacts.
Context {SC : Solver}.

Lemma run_algorithm_emitted c name total interval kw w :
  interval <> 0 ->
  emitted (run_algorithm c name total interval kw) w
  = run_prologue (bench w) name (given_kwargs kw)
    ++ flat_map (block_events c (game_rules (bench w)) (given_kwargs kw) interval)
                (seq 0 (Z.to_nat (total / interval))).
Proof.
  intros Hi. apply emitted_app. now rewrite run_algorithm_ok.
Qed.

Lemma run_algorithm_emitted_zero c name total kw w :
  emitted (run_algorithm c name total 0 kw) w
  = run_prologue (bench w) name (given_kwargs kw).
Proof. apply emitted_app. now rewrite run_algorithm_zero. Qed.

Lemma run_calls_blocks c r kw interval (ks : list nat) :
  run_calls (flat_map (block_events c r kw interval) ks)
  = repeat interval (List.length ks).
Proof.
  unfold run_calls.
  induction ks as [|k ks IH]; [reflexivity|].
  cbn [flat_map block_events app List.length repeat]. now rewrite IH.
Qed.

Lemma constructions_blocks c r kw interval (ks : list nat) :
  constructions (flat_map (block_events c r kw interval) ks) = [].
Proof.
  unfold constructions.
  induction ks as [|k ks IH]; [reflexivity|].
  cbn [flat_map block_events app]. exact IH.
Qed.

Lemma sum_repeat (v : Z) (n : nat) :
  fold_right Z.add 0 (repeat v n) = Z.of_nat n * v.
Proof.
  induction n as [|n IH]; [reflexivity|].
  cbn [repeat fold_right]. rewrite IH. lia.
Qed.

Lemma print_summary_table (w : state) :
  summary_table (emitted print_summary w) = printed_rows (results (bench w)).
Proof.
  rewrite (emitted_app print_summary w _
             (f_equal (fun p => trace (snd p)) (print_summary_spec w))).
  rewrite !summary_table_app, summary_table_rows.
  destruct (_ =? _)%nat; cbn; now rewrite app_nil_r.
Qed.

Lemma plot_convergence_labels save_path log_scale figsize sc (w : state) :
  plot_labels (emitted (plot_convergence save_path log_scale figsize sc) w)
  = keys (drawn sc (results (bench w))).
Proof.
  destruct (plot_convergence_spec save_path log_scale figsize sc w)
    as (before & after & E & Hb & Ha & _).
  rewrite (emitted_app _ w _ (f_equal (fun p => trace (snd p)) E)).
  rewrite !plot_labels_app, plot_labels_curves, Hb, Ha.
  cbn [app]. now rewrite app_nil_r.
Qed.

Lemma plot_convergence_calls save_path log_scale figsize sc (w : state) :
  plot_calls (emitted (plot_convergence save_path log_scale figsize sc) w)
  = map (curve_of sc) (drawn sc (results (bench w))).
Proof.
  destruct (plot_convergence_spec save_path log_scale figsize sc w)
    as (before & after & E & _ & _ & Hb & Ha).
  rewrite (emitted_app _ w _ (f_equal (fun p => trace (snd p)) E)).
  rewrite !plot_calls_app, plot_calls_curves, Hb, Ha.
  cbn [app]. now rewrite app_nil_r.
Qed.

Lemma nth_map_seq {A : Type} (f : nat -> A) (n k : nat) (dflt : A) :
  (k < n)%nat -> nth k (map f (seq 0 n)) dflt = f k.
Proof.
  intros Hk. rewrite (nth_indep _ dflt (f 0%nat)) by now rewrite length_map, length_seq.
  rewrite map_nth, seq_nth by assumption. reflexivity.
Qed.
End EmittedFacts.

(** * The checkpointed runner *)
Section RunnerClaims.
Context {SC : Solver}.

(** C1.  A run with [0 < checkpoint_interval <= total_iterations] returns a
    record with [total_iterations / checkpoint_interval] checkpoints; the
    i-th one (counting from 1) is at [i * checkpoint_interval], so the
    counts increase strictly and the last one is the quotient times the
    interval; the solver is advanced by the interval once per checkpoint
    and by nothing else, so it executes exactly that product of
    iterations, which never exceeds [total_iterations]: the remainder is
    dropped. *)
Theorem run_algorithm_schedule c name total interval kw w :
  0 < interval -> interval <= total ->
  let q := total / interval in
  exists data w',
    run_algorithm c name total interval kw w = (Ok data, w')
    /\ Z.of_nat (List.length (iterations data)) = q
    /\ (forall i, 1 <= i <= q ->
                  nth (Z.to_nat (i - 1)) (iterations data) 0 = i * interval)
    /\ (forall j k, (j < k < List.length (iterations data))%nat ->
                    nth j (iterations data) 0 < nth k (iterations data) 0)
    /\ py_last (iterations data) = Ok (q * interval)
    /\ run_calls (emitted (run_algorithm c name total interval kw) w)
       = repeat interval (Z.to_nat q)
    /\ iterations_executed (emitted (run_algorithm c name total interval kw) w)
       = q * interval
    /\ q * interval <= total.
Proof.
  intros Hpos Hle q.
  assert (Hi : interval <> 0) by lia.
  assert (Hq : 1 <= q) by (apply Z.div_le_lower_bound; lia).
  rewrite run_algorithm_ok by exact Hi.
  do 2 eexists. split; [reflexivity|].
  fold q. cbn [iterations run_record].
  rewrite length_map, length_seq.
  assert (Hcalls : run_calls (emitted (run_algorithm c name total interval kw) w)
                   = repeat interval (Z.to_nat q)).
  { rewrite run_algorithm_emitted by exact Hi.
    rewrite run_calls_app, run_calls_blocks, length_seq. reflexivity. }
  repeat split.
  - lia.
  - intros i Hrange. rewrite nth_map_seq by lia. f_equal. lia.
  - intros j k Hjk. rewrite !nth_map_seq by lia. nia.
  - replace (Z.to_nat q) with (S (Z.to_nat (q - 1))) by lia.
    rewrite seq_S, map_app. cbn [map Nat.add]. rewrite py_last_app.
    f_equal. f_equal. lia.
  - exact Hcalls.
  - unfold iterations_executed. rewrite Hcalls, sum_repeat. f_equal. lia.
  - rewrite Z.mul_comm. apply Z.mul_div_le. exact Hpos.
Qed.

(** C3.  The metric stored at each checkpoint is the sum of the per-player
    values that [best_response()] returns on the profile of the solver as
    it stands then, that is after that many blocks. *)
Theorem checkpoint_metric c name total interval kw w :
  interval <> 0 ->
  let n := Z.to_nat (total / interval) in
  exists data w',
    run_algorithm c name total interval kw w = (Ok data, w')
    /\ List.length (exploitability data) = n
    /\ forall k, (k < n)%nat ->
         nth k (exploitability data) num_zero
         = sum (snd (best_response
                       (profile_of
                          (solver_after c (game_rules (bench w))
                                        (given_kwargs kw) interval (S k))))).
Proof.
  intros Hi n. rewrite run_algorithm_ok by exact Hi.
  do 2 eexists. split; [reflexivity|].
  fold n. cbn [exploitability run_record].
  rewrite length_map, length_seq. split; [reflexivity|].
  intros k Hk. now rewrite nth_map_seq.
Qed.

(** C4.  A run builds its solver once, right after the banner and before
    anything else, whatever the interval.  With a non-zero interval it
    then goes through [total_iterations / checkpoint_interval] blocks, and
    block [k] (from 0) is: [cfr.run(checkpoint_interval)], then
    [best_response()] on the profile the solver has now, then the pair
    [((k + 1) * checkpoint_interval, metric)], appended to the two lists
    and printed. *)
Theorem run_algorithm_blocks c name total interval kw w :
  let self := bench w in
  let options := given_kwargs kw in
  let evs := emitted (run_algorithm c name total interval kw) w in
  constructions evs = [options]
  /\ firstn 4 evs = run_prologue self name options
  /\ (interval <> 0 ->
      let n := Z.to_nat (total / interval) in
      exists data w',
        run_algorithm c name total interval kw w = (Ok data, w')
        /\ skipn 4 evs
           = flat_map
               (fun k =>
                  let cfr := solver_after c (game_rules self) options
                                          interval (S k) in
                  [Run interval; BestResponse (profile_of cfr);
                   Print (Progress ((Z.of_nat k + 1) * interval) (metric cfr))])
               (seq 0 n)
        /\ combine (iterations data) (exploitability data)
           = map (fun k =>
                    ((Z.of_nat k + 1) * interval,
                     metric (solver_after c (game_rules self) options
                                          interval (S k))))
                 (seq 0 n)).
Proof.
  intros self options evs. subst evs.
  destruct (Z.eq_dec interval 0) as [->|Hi].
  - rewrite run_algorithm_emitted_zero. repeat split. intros []. reflexivity.
  - rewrite run_algorithm_emitted by exact Hi.
    rewrite constructions_app, constructions_blocks.
    repeat split. intros _ n.
    rewrite run_algorithm_ok by exact Hi.
    do 2 eexists. split; [reflexivity|]. split; [reflexivity|].
    cbn [iterations exploitability run_record]. fold n.
    generalize (seq 0 n). intros ks.
    induction ks as [|k ks IH]; [reflexivity|].
    cbn [map combine]. now rewrite IH.
Qed.
End RunnerClaims.

(** * The result store *)
Section StoreClaims.
Context {SC : Solver}.

Lemma dict_set_In_keys {V : Type} (k : string) (v : V) (d : dict V) :
  In k (keys (dict_set k v d)).
Proof.
  apply dict_mem_keys. unfold dict_mem. now rewrite dict_get_set_same.
Qed.

(** C2, as the code has it.  A run whose interval is positive and larger
    than the budget executes no block and returns empty sequences.  It is
    stored all the same: the store has an entry under its name, and
    [plot_convergence], given no style that brings a label of its own (the
    call that would raise [TypeError]), calls [plt.plot] for it: a curve
    of no point, labelled with the name.  The summary table shows no row
    under that name: [print_summary] raises [IndexError] on the way. *)
Theorem degenerate_schedule c name total interval kw w :
  0 < interval -> total < interval ->
  exists data w',
    run_algorithm c name total interval kw w = (Ok data, w')
    /\ iterations data = [] /\ exploitability data = []
    /\ run_calls (emitted (run_algorithm c name total interval kw) w) = []
    /\ dict_get name (results (bench w')) = Some data
    /\ (forall save_path log_scale figsize sc,
          label_free sc (results (bench w')) ->
          let evs :=
            emitted (plot_convergence save_path log_scale figsize sc) w' in
          In ([], [], name, pick_style sc name) (plot_calls evs)
          /\ In name (plot_labels evs))
    /\ ~ In name (map (fun row => fst (fst row))
                      (summary_table (emitted print_summary w')))
    /\ fst (print_summary w') = Raise IndexError.
Proof.
  intros Hpos Hlt.
  assert (Hi : interval <> 0) by lia.
  assert (Hn : Z.to_nat (total / interval) = 0%nat).
  { destruct (Z_lt_le_dec total 0) as [Hneg|Hnn].
    - assert (total / interval < 0) by (apply Z.div_lt_upper_bound; lia). lia.
    - rewrite Z.div_small by lia. reflexivity. }
  rewrite run_algorithm_ok by exact Hi.
  do 2 eexists. split; [reflexivity|].
  rewrite run_algorithm_emitted by exact Hi.
  rewrite Hn. cbn [bench results with_results].
  repeat split.
  - apply dict_get_set_same.
  - rewrite plot_convergence_calls. cbn [bench results with_results].
    rewrite (drawn_all _ _ H).
    apply (in_map (curve_of sc) _
             (name, run_record c (game_rules (bench w)) (given_kwargs kw)
                               interval 0)).
    apply dict_get_In, dict_get_set_same.
  - rewrite plot_convergence_labels. cbn [bench results with_results].
    rewrite (drawn_all _ _ H). apply dict_set_In_keys.
  - rewrite print_summary_table. cbn [bench results with_results].
    eapply printed_rows_skip; [apply dict_get_set_same|reflexivity].
  - apply print_summary_raises. cbn [bench results with_results].
    apply Exists_exists. eexists. split.
    + apply dict_get_In, dict_get_set_same.
    + reflexivity.
Qed.

(** C6.  When an algorithm is run a second time under the same name, the
    store, which mapped the name to the record of the first run, then maps
    it to the record the second run returns: the first record is gone.
    The entry keeps its place, no entry is added, and every other name
    keeps its entry. *)
Theorem rerun_overwrites c1 c2 name total1 interval1 kw1 total2 interval2 kw2
  w data1 w1 data2 w2 :
  run_algorithm c1 name total1 interval1 kw1 w = (Ok data1, w1) ->
  run_algorithm c2 name total2 interval2 kw2 w1 = (Ok data2, w2) ->
  dict_get name (results (bench w1)) = Some data1
  /\ dict_get name (results (bench w2)) = Some data2
  /\ keys (results (bench w2)) = keys (results (bench w1))
  /\ forall other, other <> name ->
       dict_get other (results (bench w2)) = dict_get other (results (bench w1)).
Proof.
  intros H1 H2.
  destruct (Z.eq_dec interval1 0) as [->|Hi1];
    [rewrite run_algorithm_zero in H1; discriminate|].
  destruct (Z.eq_dec interval2 0) as [->|Hi2];
    [rewrite run_algorithm_zero in H2; discriminate|].
  rewrite run_algorithm_ok in H1 by exact Hi1.
  rewrite run_algorithm_ok in H2 by exact Hi2.
  injection H1 as <- <-. injection H2 as <- <-.
  cbn [bench results with_results game_rules].
  split; [apply dict_get_set_same|]. split; [apply dict_get_set_same|].
  split.
  - apply keys_dict_set_old, dict_set_In_keys.
  - intros other Hne. apply dict_get_set_other. congruence.
Qed.

(** C10.  In every state a session can reach, each stored run has as many
    iteration counts as metric values, and every method keeps it so,
    whether it returns or raises; a run that returns has
    [total_iterations / checkpoint_interval] of each (none when the
    quotient is negative) and is stored under its name. *)
Theorem stored_runs_balanced w :
  session w ->
  balanced (results (bench w))
  /\ (forall c name total interval kw,
        balanced (results (bench (snd (run_algorithm c name total interval kw w)))))
  /\ (forall cfgs total interval,
        balanced (results (bench (snd (compare_algorithms cfgs total interval w)))))
  /\ balanced (results (bench (snd (print_summary w))))
  /\ (forall save_path log_scale figsize sc,
        balanced (results (bench (snd (plot_convergence save_path log_scale
                                                         figsize sc w)))))
  /\ (forall c name total interval kw data w',
        run_algorithm c name total interval kw w = (Ok data, w') ->
        List.length (iterations data) = Z.to_nat (total / interval)
        /\ List.length (exploitability data) = Z.to_nat (total / interval)
        /\ dict_get name (results (bench w')) = Some data).
Proof.
  intros Hs.
  assert (Hinv : forall w0, session w0 -> balanced (results (bench w0))).
  { induction 1 as [r n|w0 c name t i kw _ IH|w0 cfgs t i _ IH|w0 _ IH
                    |w0 sp ls fs sc _ IH].
    - constructor.
    - now apply run_algorithm_balanced.
    - now apply compare_algorithms_balanced.
    - now rewrite print_summary_spec.
    - destruct (plot_convergence_spec sp ls fs sc w0) as (? & ? & -> & _).
      exact IH. }
  split; [now apply Hinv|].
  split; [intros; apply Hinv; now constructor|].
  split; [intros; apply Hinv; now constructor|].
  split; [apply Hinv; now constructor|].
  split; [intros; apply Hinv; now constructor|].
  intros c name total interval kw data w' Hrun.
  destruct (Z.eq_dec interval 0) as [->|Hi];
    [rewrite run_algorithm_zero in Hrun; discriminate|].
  rewrite run_algorithm_ok in Hrun by exact Hi.
  injection Hrun as <- <-.
  cbn [iterations exploitability run_record bench results with_results].
  rewrite !length_map, length_seq.
  repeat split. apply dict_get_set_same.
Qed.
End StoreClaims.

(** * The batch driver and the reports *)
Section BatchClaims.
Context {SC : Solver}.

(** C5.  When the entries before it have returned, a config tuple that has
    neither two nor three items raises [ValueError], and the state is then
    exactly the one those entries left: their stored runs are all there,
    and no solver was built or advanced for the malformed entry or for any
    entry after it.  The entry raises no matter what else is true of the
    state it is met in. *)
Theorem malformed_config_raises pre bad post total interval w w1 :
  compare_algorithms pre total interval w = (Ok tt, w1) ->
  List.length bad <> 2%nat -> List.length bad <> 3%nat ->
  compare_algorithms (pre ++ bad :: post) total interval w
  = (Raise ValueError, w1)
  /\ emitted (compare_algorithms (pre ++ bad :: post) total interval) w
     = emitted (compare_algorithms pre total interval) w
  /\ forall w2, run_config bad total interval w2 = (Raise ValueError, w2).
Proof.
  intros Hpre H2 H3.
  assert (E : compare_algorithms (pre ++ bad :: post) total interval w
              = (Raise ValueError, w1)).
  { rewrite compare_algorithms_app. unfold bind at 1. rewrite Hpre.
    cbn [compare_algorithms]. unfold bind.
    now rewrite run_config_arity. }
  split; [exact E|]. split.
  - unfold emitted. now rewrite E, Hpre.
  - intros w2. now apply run_config_arity.
Qed.

(** C7, as the code has it.  A batch with pairwise-distinct names, none of
    them stored yet, that runs to the end leaves the store iterating over
    what it held before and then over the batch's names in input order,
    one per config; on a new session that is the input order itself.  The
    legend of the plot follows the store's order when no style brings a
    label of its own (the call that would raise [TypeError]), and so do
    the rows of the summary when every stored run has a checkpoint. *)
Theorem batch_keeps_input_order cfgs total interval w w' :
  compare_algorithms cfgs total interval w = (Ok tt, w') ->
  NoDup (batch_names cfgs) ->
  (forall name, In name (batch_names cfgs) ->
                ~ In name (keys (results (bench w)))) ->
  keys (results (bench w')) = keys (results (bench w)) ++ batch_names cfgs
  /\ List.length (batch_names cfgs) = List.length cfgs
  /\ (results (bench w) = [] -> keys (results (bench w')) = batch_names cfgs)
  /\ (forall save_path log_scale figsize sc,
        label_free sc (results (bench w')) ->
        plot_labels (emitted (plot_convergence save_path log_scale figsize sc) w')
        = keys (results (bench w')))
  /\ (Forall (fun entry => has_checkpoint (snd entry)) (results (bench w')) ->
      map (fun row => fst (fst row)) (summary_table (emitted print_summary w'))
      = keys (results (bench w'))).
Proof.
  intros Hrun Hnd Hnew.
  pose proof (compare_algorithms_keys cfgs total interval w w' Hrun Hnd Hnew)
    as Hkeys.
  split; [exact Hkeys|]. split; [|split; [|split]].
  - clear Hnd Hnew Hkeys. revert w Hrun.
    induction cfgs as [|cfg cfgs IH]; intros w Hrun; [reflexivity|].
    cbn [compare_algorithms] in Hrun. unfold bind in Hrun.
    destruct (run_config cfg total interval w) as [[[]|e] w1] eqn:E;
      [|discriminate].
    apply run_config_ok in E as (c & name & kw & Hwf & _).
    specialize (IH w1 Hrun). unfold batch_names in *.
    cbn [flat_map]. rewrite length_app, IH. now destruct Hwf.
  - intros Hfresh. now rewrite Hkeys, Hfresh.
  - intros sp ls fs sc Hfree.
    now rewrite plot_convergence_labels, (drawn_all _ _ Hfree).
  - intros Hall. rewrite print_summary_table, (printed_rows_all _ Hall).
    unfold keys. rewrite map_map. reflexivity.
Qed.

(** C8, as the code has it.  [print_summary] never changes the benchmark
    object.  When every stored run has a last checkpoint it returns, and
    the rows it prints are, in the store's order, one per run: the name
    with the last iteration count and the last metric value. *)
Theorem print_summary_rows w :
  bench (snd (print_summary w)) = bench w
  /\ (Forall (fun entry => has_checkpoint (snd entry)) (results (bench w)) ->
      fst (print_summary w) = Ok tt
      /\ summary_table (emitted print_summary w)
         = map (fun entry =>
                  (fst entry, last (iterations (snd entry)) 0,
                   last (exploitability (snd entry)) num_zero))
               (results (bench w))).
Proof.
  split; [now rewrite print_summary_spec|].
  intros Hall. rewrite print_summary_table, print_summary_spec.
  rewrite (printed_rows_all _ Hall), length_map, Nat.eqb_refl.
  split; reflexivity.
Qed.

(** C9.  When a stored run has no iteration counts, [print_summary] raises
    [IndexError].  If the runs stored before it all have a last
    checkpoint, their rows are printed first and nothing is printed for
    the run itself or for those after it: the failure is at that run. *)
Theorem print_summary_empty_run w pre name data post :
  results (bench w) = pre ++ (name, data) :: post ->
  iterations data = [] ->
  fst (print_summary w) = Raise IndexError
  /\ (Forall (fun entry => has_checkpoint (snd entry)) pre ->
      summary_table (emitted print_summary w)
      = map (fun entry =>
               (fst entry, last (iterations (snd entry)) 0,
                last (exploitability (snd entry)) num_zero))
            pre).
Proof.
  intros Hres Hempty. split.
  - apply print_summary_raises. rewrite Hres.
    apply Exists_app. right. now constructor.
  - intros Hpre. rewrite print_summary_table, Hres.
    clear Hres. induction Hpre as [|[n d] pre [Hi He] _ IH].
    + cbn. now rewrite Hempty.
    + cbn [app printed_rows map fst snd] in *.
      rewrite (py_last_nonempty _ 0 Hi), (py_last_nonempty _ num_zero He).
      now rewrite IH.
Qed.
End BatchClaims.

(** * More about the runner *)
Section RunnerMore.
Context {SC : Solver}.

Lemma best_response_calls_app (xs ys : list event) :
  best_response_calls (xs ++ ys)
  = best_response_calls xs ++ best_response_calls ys.
Proof. apply flat_map_app. Qed.

Lemma best_response_calls_blocks c r kw interval (ks : list nat) :
  best_response_calls (flat_map (block_events c r kw interval) ks)
  = map (fun k => profile_of (solver_after c r kw interval (S k))) ks.
Proof.
  unfold best_response_calls.
  induction ks as [|k ks IH]; [reflexivity|].
  cbn [flat_map block_events app map]. now rewrite IH.
Qed.

Lemma existsb_eqb_In (k : string) (ks : list string) :
  existsb (String.eqb k) ks = true <-> In k ks.
Proof.
  rewrite existsb_exists. split.
  - intros (x & Hx & E). apply String.eqb_eq in E. now subst.
  - intros H. exists k. split; [exact H|apply String.eqb_refl].
Qed.

Lemma keys_dict_set_add_key {V : Type} (k : string) (v : V) (d : dict V) :
  keys (dict_set k v d) = add_key (keys d) k.
Proof.
  unfold add_key. destruct (existsb (String.eqb k) (keys d)) eqn:E.
  - apply keys_dict_set_old. now apply existsb_eqb_In.
  - apply keys_dict_set_new. intros H. apply existsb_eqb_In in H. congruence.
Qed.

(** X1.  With a zero interval [run_algorithm] raises [ZeroDivisionError],
    but only after it has printed the banner and built the solver: one
    construction is on the trace, no [cfr.run] and no [best_response()]
    call, and the benchmark object is as it was. *)
Theorem zero_interval_raises c name total kw w :
  let evs := emitted (run_algorithm c name total 0 kw) w in
  fst (run_algorithm c name total 0 kw w) = Raise ZeroDivisionError
  /\ bench (snd (run_algorithm c name total 0 kw w)) = bench w
  /\ constructions evs = [given_kwargs kw]
  /\ run_calls evs = []
  /\ best_response_calls evs = [].
Proof.
  intros evs. subst evs.
  rewrite run_algorithm_emitted_zero, run_algorithm_zero.
  repeat split.
Qed.

(** X2.  With a positive interval and a non-negative budget the iterations
    that are never run are the remainder of the division: the solver
    executes [total - total mod interval] iterations, less than one
    interval short of the budget, and the whole budget exactly when the
    interval divides it. *)
Theorem dropped_remainder c name total interval kw w :
  0 < interval -> 0 <= total ->
  let done :=
    iterations_executed (emitted (run_algorithm c name total interval kw) w) in
  done = total - total mod interval
  /\ 0 <= total - done < interval
  /\ (done = total <-> total mod interval = 0).
Proof.
  intros Hpos Hnn done. subst done.
  rewrite run_algorithm_emitted by lia.
  unfold iterations_executed.
  rewrite run_calls_app, run_calls_blocks, length_seq. cbn [run_calls
    run_prologue flat_map app].
  rewrite sum_repeat.
  assert (Hq : 0 <= total / interval) by (apply Z.div_pos; lia).
  rewrite Z2Nat.id by exact Hq.
  pose proof (Z.div_mod total interval ltac:(lia)) as Hdm.
  pose proof (Z.mod_pos_bound total interval Hpos) as Hm.
  repeat split; lia.
Qed.

(** X3.  The signs of the arguments are not checked.  With a negative
    interval, a budget above it gives a run of no block, stored with empty
    sequences; a budget at or below it gives [total / interval] blocks,
    each advancing the solver by the negative interval and recording a
    negative iteration count. *)
Theorem negative_interval c name total interval kw w :
  interval < 0 ->
  exists data w',
    run_algorithm c name total interval kw w = (Ok data, w')
    /\ dict_get name (results (bench w')) = Some data
    /\ (interval < total -> iterations data = [] /\ exploitability data = [])
    /\ (total <= interval ->
        1 <= total / interval
        /\ Z.of_nat (List.length (iterations data)) = total / interval
        /\ Forall (fun n => n < 0) (iterations data)
        /\ run_calls (emitted (run_algorithm c name total interval kw) w)
           = repeat interval (Z.to_nat (total / interval))).
Proof.
  intros Hneg.
  assert (Hi : interval <> 0) by lia.
  rewrite run_algorithm_emitted by exact Hi.
  rewrite run_algorithm_ok by exact Hi.
  do 2 eexists. split; [reflexivity|].
  cbn [bench results with_results iterations exploitability run_record].
  split; [apply dict_get_set_same|]. split.
  - intros Hlt.
    assert (Hq : total / interval <= 0).
    { rewrite <- (Z.div_opp_opp total interval) by lia.
      destruct (Z_lt_le_dec 0 total) as [Hp|Hnp].
      - assert (- total / - interval < 0)
          by (apply Z.div_lt_upper_bound; lia).
        lia.
      - rewrite Z.div_small by lia. lia. }
    replace (Z.to_nat (total / interval)) with 0%nat by lia.
    split; reflexivity.
  - intros Hle.
    assert (Hq : 1 <= total / interval).
    { rewrite <- (Z.div_opp_opp total interval) by lia.
      apply Z.div_le_lower_bound; lia. }
    split; [exact Hq|].
    rewrite length_map, length_seq. split; [lia|]. split.
    + apply Forall_forall. intros n Hn. apply in_map_iff in Hn as (k & <- & _).
      nia.
    + rewrite run_calls_app, run_calls_blocks, length_seq. reflexivity.
Qed.

(** X4.  The profile kept as [final_strategy] is the solver's profile once
    all blocks have run: the last profile [best_response()] was called on,
    so that evaluating it again gives the last recorded metric; when no
    block ran it is the profile of the solver as constructed. *)
Theorem final_strategy_is_last_profile c name total interval kw w :
  interval <> 0 ->
  let n := Z.to_nat (total / interval) in
  let built := c (game_rules (bench w)) (given_kwargs kw) in
  exists data w',
    run_algorithm c name total interval kw w = (Ok data, w')
    /\ final_strategy data
       = profile_of (Nat.iter n (fun cfr => run cfr interval) built)
    /\ (n = 0%nat -> final_strategy data = profile_of built)
    /\ ((0 < n)%nat ->
        py_last (best_response_calls
                   (emitted (run_algorithm c name total interval kw) w))
        = Ok (final_strategy data)
        /\ py_last (exploitability data)
           = Ok (sum (snd (best_response (final_strategy data))))).
Proof.
  intros Hi n built.
  rewrite run_algorithm_emitted by exact Hi.
  rewrite run_algorithm_ok by exact Hi.
  do 2 eexists. split; [reflexivity|].
  fold n. cbn [final_strategy exploitability run_record].
  split; [reflexivity|]. split.
  - intros ->. reflexivity.
  - intros Hn. rewrite best_response_calls_app, best_response_calls_blocks.
    cbn [best_response_calls run_prologue flat_map app].
    replace n with (S (Nat.pred n)) by lia.
    rewrite seq_S, !map_app. cbn [map Nat.add]. rewrite !py_last_app.
    split; reflexivity.
Qed.

(** X5.  Whatever its outcome, [run_algorithm] touches at most the entry
    of its own name: the rules and the label stay, every other name keeps
    its record, and the store's order is the old one, with the name added
    at the end if it is new and the call returns.  It returns exactly when
    the interval is not zero. *)
Theorem run_algorithm_touches_one_entry c name total interval kw w :
  let r := fst (run_algorithm c name total interval kw w) in
  let w' := snd (run_algorithm c name total interval kw w) in
  game_rules (bench w') = game_rules (bench w)
  /\ game_name (bench w') = game_name (bench w)
  /\ (forall other, other <> name ->
        dict_get other (results (bench w')) = dict_get other (results (bench w)))
  /\ keys (results (bench w'))
     = (if interval =? 0 then keys (results (bench w))
        else add_key (keys (results (bench w))) name)
  /\ ((exists data, r = Ok data) <-> interval <> 0).
Proof.
  intros r w'. subst r w'.
  destruct (Z.eqb_spec interval 0) as [->|Hi].
  - rewrite run_algorithm_zero. cbn [fst snd bench].
    repeat split; try reflexivity.
    + intros [data H]. discriminate.
    + intros H. contradiction.
  - rewrite run_algorithm_ok by exact Hi.
    cbn [fst snd bench results with_results game_rules game_name].
    repeat split; try reflexivity.
    + intros other Hne. apply dict_get_set_other. congruence.
    + apply keys_dict_set_add_key.
    + intros _. exact Hi.
    + intros _. eexists. reflexivity.
Qed.
End RunnerMore.

(** * More about the batch driver *)
Section BatchMore.
Context {SC : Solver}.

Lemma batch_names_cons cfg cfgs c name kw :
  well_formed cfg c name kw ->
  batch_names (cfg :: cfgs) = name :: batch_names cfgs.
Proof. intros []; reflexivity. Qed.

(** One entry of the batch, whatever its outcome: either the object is
    untouched and the entry raised, or it was a documented config whose
    run was stored. *)
Lemma run_config_outcome cfg total interval w :
  let r := fst (run_config cfg total interval w) in
  let w' := snd (run_config cfg total interval w) in
  (bench w' = bench w /\ exists e, r = Raise e)
  \/ (exists c name kw,
        well_formed cfg c name kw /\ interval <> 0 /\ r = Ok tt
        /\ bench w'
           = with_results (bench w)
               (dict_set name
                  (run_record c (game_rules (bench w)) kw interval
                              (Z.to_nat (total / interval)))
                  (results (bench w)))).
Proof.
  destruct (run_config_cases cfg total interval w)
    as [(c & name & kw & Hwf & E)|[e E]]; rewrite E; cbn [fst snd].
  - unfold bind. destruct (Z.eq_dec interval 0) as [->|Hi].
    + rewrite run_algorithm_zero. cbn [fst snd bench]. left. eauto.
    + rewrite run_algorithm_ok by exact Hi. cbn [fst snd bench given_kwargs].
      right. exists c, name, kw. repeat split; assumption.
  - left. eauto.
Qed.

(** X6.  A batch is run entry by entry and stops at the first entry that
    raises: running [pre ++ post] is running [pre] and then, if that
    returned, [post] from the state it left; if [pre] raised, the
    exception and the state are those of [pre] and [post] is never
    looked at. *)
Theorem batch_splits pre post total interval w :
  compare_algorithms (pre ++ post) total interval w
  = match compare_algorithms pre total interval w with
    | (Ok _, w1) => compare_algorithms post total interval w1
    | (Raise e, w1) => (Raise e, w1)
    end.
Proof.
  rewrite compare_algorithms_app. unfold bind.
  now destruct (compare_algorithms pre total interval w) as [[[]|e] w1].
Qed.

(** X7.  The pair [(class, name)] is the triple [(class, name, {})]:
    rewriting every pair of a batch that way changes neither the outcome
    nor the state the batch leaves. *)
Theorem pairs_are_triples cfgs total interval w :
  compare_algorithms (map as_triple cfgs) total interval w
  = compare_algorithms cfgs total interval w.
Proof.
  revert w. induction cfgs as [|cfg cfgs IH]; intros w; [reflexivity|].
  cbn [map compare_algorithms]. unfold bind.
  assert (E : run_config (as_triple cfg) total interval w
              = run_config cfg total interval w).
  { destruct cfg as [|[c| |] [|[|name|] [|? ?]]]; reflexivity. }
  rewrite E.
  destruct (run_config cfg total interval w) as [[[]|e] w1];
    [apply IH|reflexivity].
Qed.

(** X8.  When a batch returns, every config had two or three items and,
    unless the batch was empty, the interval was not zero.  Conversely a
    batch of documented configs with a non-zero interval returns. *)
Theorem batch_returns cfgs total interval w :
  (fst (compare_algorithms cfgs total interval w) = Ok tt ->
   Forall (fun cfg => List.length cfg = 2%nat \/ List.length cfg = 3%nat) cfgs
   /\ (cfgs = [] \/ interval <> 0))
  /\ (Forall documented cfgs -> interval <> 0 ->
      fst (compare_algorithms cfgs total interval w) = Ok tt).
Proof.
  split.
  - revert w. induction cfgs as [|cfg cfgs IH]; intros w H.
    + split; [constructor|now left].
    + cbn [compare_algorithms] in H. unfold bind in H.
      destruct (run_config cfg total interval w) as [[[]|e] w1] eqn:E;
        [|discriminate].
      apply run_config_ok in E as (c & name & kw & Hwf & Hi & _).
      destruct (IH w1 H) as [Hall _].
      split; [|now right].
      constructor; [|exact Hall]. destruct Hwf; auto.
  - intros Hall Hi. revert w.
    induction Hall as [|cfg cfgs (c & name & kw & Hwf) _ IH]; intros w;
      [reflexivity|].
    cbn [compare_algorithms]. unfold bind.
    destruct (run_config_outcome cfg total interval w)
      as [[_ [e He]]|(c' & name' & kw' & _ & _ & Hr & _)].
    + exfalso. destruct Hwf; unfold run_config in He;
        cbn [List.length Nat.eqb] in He; unfold bind in He;
        rewrite run_algorithm_ok in He by exact Hi; discriminate.
    + destruct (run_config cfg total interval w) as [r w1].
      cbn [fst] in Hr. subst r. apply IH.
Qed.

(** X9.  With a zero interval a batch that starts with a documented
    config raises [ZeroDivisionError] at that entry: its solver has been
    built, no other one is, and the benchmark object is untouched. *)
Theorem zero_interval_batch cfg rest c name kw total w :
  well_formed cfg c name kw ->
  compare_algorithms (cfg :: rest) total 0 w
  = (Raise ZeroDivisionError,
     mk_state (bench w) (trace w ++ run_prologue (bench w) name kw)).
Proof.
  intros Hwf. cbn [compare_algorithms]. unfold bind at 1.
  destruct Hwf; unfold run_config; cbn [List.length Nat.eqb];
    unfold bind; now rewrite run_algorithm_zero.
Qed.

(** X10.  After a batch that returns, the store iterates in the order got
    by taking the batch's names in input order and putting each one that
    is not there yet at the end: a name that was stored, or that comes a
    second time in the batch, keeps its first place. *)
Theorem batch_store_order cfgs total interval w w' :
  compare_algorithms cfgs total interval w = (Ok tt, w') ->
  keys (results (bench w'))
  = fold_left add_key (batch_names cfgs) (keys (results (bench w))).
Proof.
  revert w. induction cfgs as [|cfg cfgs IH]; intros w Hrun.
  - now injection Hrun as <-.
  - cbn [compare_algorithms] in Hrun. unfold bind in Hrun.
    destruct (run_config cfg total interval w) as [[[]|e] w1] eqn:E;
      [|discriminate].
    apply run_config_ok in E as (c & name & kw & Hwf & _ & _ & Hres).
    rewrite (batch_names_cons _ _ _ _ _ Hwf). cbn [fold_left].
    rewrite (IH w1 Hrun), Hres, keys_dict_set_add_key. reflexivity.
Qed.

(** X11.  Whatever its outcome, a batch takes nothing out of the store and
    moves nothing in it: the names stored before come first, in their
    order, followed by names of the batch; the rules and the label stay;
    and a name that no config of the batch carries keeps its record. *)
Theorem batch_only_adds cfgs total interval w :
  let w' := snd (compare_algorithms cfgs total interval w) in
  game_rules (bench w') = game_rules (bench w)
  /\ game_name (bench w') = game_name (bench w)
  /\ (exists added, keys (results (bench w')) = keys (results (bench w)) ++ added
                    /\ incl added (batch_names cfgs))
  /\ (forall other, ~ In other (batch_names cfgs) ->
        dict_get other (results (bench w')) = dict_get other (results (bench w))).
Proof.
  revert w. induction cfgs as [|cfg cfgs IH]; intros w.
  - cbn. repeat split. exists []. split; [now rewrite app_nil_r|easy].
  - cbn [compare_algorithms]. unfold bind.
    pose proof (run_config_outcome cfg total interval w) as Hcfg.
    destruct (run_config cfg total interval w) as [r w1]. cbn [fst snd] in Hcfg.
    destruct Hcfg as [[Hb [e ->]]|(c & name & kw & Hwf & _ & -> & Hb)].
    + cbn [snd]. rewrite Hb. repeat split.
      exists []. split; [now rewrite app_nil_r|easy].
    + specialize (IH w1). cbn zeta in IH.
      destruct (compare_algorithms cfgs total interval w1) as [r2 w2].
      cbn [snd] in *. destruct IH as (Hr & Hn & (added & Hk & Hincl) & Hget).
      rewrite Hb in Hr, Hn, Hk, Hget.
      cbn [with_results game_rules game_name results] in Hr, Hn, Hk, Hget.
      rewrite (batch_names_cons _ _ _ _ _ Hwf).
      split; [exact Hr|]. split; [exact Hn|]. split.
      * rewrite keys_dict_set_add_key in Hk. unfold add_key in Hk.
        destruct (existsb (String.eqb name) (keys (results (bench w)))).
        -- exists added. split; [exact Hk|]. now apply incl_tl.
        -- exists (name :: added). rewrite Hk, <- app_assoc. split; [reflexivity|].
           apply incl_cons; [now left|now apply incl_tl].
      * intros other Hnot. rewrite Hget by (intros H; apply Hnot; now right).
        apply dict_get_set_other. intros ->. apply Hnot. now left.
Qed.
End BatchMore.

(** * More about the reports *)
Section ReportMore.
Context {SC : Solver}.

Lemma plot_convergence_events save_path log_scale figsize sc (w : state) :
  plot_convergence save_path log_scale figsize sc w
  = (if all_drawn sc (results (bench w)) then Ok tt else Raise TypeError,
     mk_state (bench w)
       (trace w ++ plot_events save_path log_scale figsize sc (bench w))).
Proof.
  unfold plot_convergence, plot_events, plot_finish.
  rewrite bind_get_self, !bind_emit, bind_get_items. cbn [bench trace].
  unfold bind at 1. rewrite plot_curves_spec.
  destruct (all_drawn sc (results (bench w))).
  - rewrite !bind_emit. cbn [bench trace].
    destruct log_scale, save_path as [path|];
      try destruct (truthy_path (Some path)) eqn:Et;
      unfold bind; rewrite ?Et; unfold emit, print, ret, emit;
      cbn [bench trace]; rewrite <- ?app_assoc; cbn [app];
      rewrite <- ?app_assoc; reflexivity.
  - cbn [bench trace]. rewrite <- ?app_assoc. cbn [app].
    now rewrite app_nil_r.
Qed.

Lemma plot_convergence_emitted save_path log_scale figsize sc (w : state) :
  emitted (plot_convergence save_path log_scale figsize sc) w
  = plot_events save_path log_scale figsize sc (bench w).
Proof. apply emitted_app. now rewrite plot_convergence_events. Qed.

Lemma print_summary_emitted (w : state) :
  emitted print_summary w
  = summary_header (bench w)
    ++ map row_event (printed_rows (results (bench w)))
    ++ (if (List.length (printed_rows (results (bench w)))
            =? List.length (results (bench w)))%nat
        then [Print (Rule "=" 80)] else []).
Proof. apply emitted_app. now rewrite print_summary_spec. Qed.

(** The table holds a row for each run of the longest starting stretch of
    the store in which every run has a last checkpoint. *)
Lemma printed_rows_prefix (items : dict run_data) :
  let k := List.length (printed_rows items) in
  printed_rows items = map summary_row_of (firstn k items)
  /\ Forall (fun entry => has_checkpoint (snd entry)) (firstn k items)
  /\ ((k < List.length items)%nat ->
      exists entry, nth_error items k = Some entry
                    /\ ~ has_checkpoint (snd entry)).
Proof.
  induction items as [|[n d] items IH]; cbn zeta.
  - cbn. repeat split; [constructor|lia].
  - cbn [printed_rows].
    destruct (py_last (iterations d)) as [a|e] eqn:Ea.
    + destruct (py_last (exploitability d)) as [b|e] eqn:Eb.
      * destruct (py_last_ok _ _ 0 Ea) as [Hi ->].
        destruct (py_last_ok _ _ num_zero Eb) as [He ->].
        cbn [List.length firstn map]. cbn zeta in IH.
        destruct IH as (IH1 & IH2 & IH3).
        split; [now rewrite <- IH1|]. split.
        -- constructor; [split; assumption|exact IH2].
        -- intros Hlt. cbn [nth_error]. apply IH3. lia.
      * cbn. repeat split; [constructor|]. intros _.
        exists (n, d). split; [reflexivity|].
        apply py_last_raise in Eb as [Hempty _]. intros [_ H]. now apply H.
    + cbn. repeat split; [constructor|]. intros _.
      exists (n, d). split; [reflexivity|].
      apply py_last_raise in Ea as [Hempty _]. intros [H _]. now apply H.
Qed.

Lemma printed_rows_complete (items : dict run_data) :
  List.length (printed_rows items) = List.length items
  <-> Forall (fun entry => has_checkpoint (snd entry)) items.
Proof.
  split.
  - intros Hlen. destruct (printed_rows_prefix items) as (_ & Hall & _).
    cbn zeta in Hall. rewrite Hlen, firstn_all in Hall. exact Hall.
  - intros Hall. now rewrite (printed_rows_all _ Hall), length_map.
Qed.

(** The invariant of the store, over the states of a session. *)
Lemma session_balanced (w : state) :
  session w -> balanced (results (bench w)).
Proof.
  induction 1 as [r n|w c name t i kw _ IH|w cfgs t i _ IH|w _ IH
                  |w sp ls fs sc _ IH].
  - constructor.
  - now apply run_algorithm_balanced.
  - now apply compare_algorithms_balanced.
  - now rewrite print_summary_spec.
  - now rewrite plot_convergence_events.
Qed.

(** X12.  [plot_convergence] draws the stored runs in the store's order,
    one [plt.plot] call per run: the run's iteration counts against its
    metric values, labelled with its name.  The style of the curve is the
    one [style_config] holds under that name and the default
    [{"linewidth": 2}] when it holds none or there is no [style_config].
    A style with a ["label"] key of its own stops the drawing: the runs
    before the first such run are drawn, that run and those after it are
    not, and the call raises [TypeError]; every run is drawn exactly when
    no run has such a style.  Without a [style_config], or with an empty
    one, every run is drawn in the default style.  The benchmark object
    is left as it is. *)
Theorem plot_draws_every_run save_path log_scale figsize sc w :
  let out := plot_convergence save_path log_scale figsize sc w in
  let evs := emitted (plot_convergence save_path log_scale figsize sc) w in
  let items := results (bench w) in
  let k := List.length (plot_calls evs) in
  bench (snd out) = bench w
  /\ plot_calls evs = map (curve_of sc) (firstn k items)
  /\ (forall xs ys name st,
        In (xs, ys, name, st) (plot_calls evs) ->
        dict_mem "label" st = false
        /\ (forall cfg st', sc = Some cfg -> dict_get name cfg = Some st' ->
            st = st')
        /\ (forall cfg, sc = Some cfg -> dict_get name cfg = None ->
            st = [("linewidth", "2")]%string)
        /\ (sc = None -> st = [("linewidth", "2")]%string))
  /\ ((k < List.length items)%nat ->
      exists entry, nth_error items k = Some entry
                    /\ dict_mem "label" (pick_style sc (fst entry)) = true)
  /\ (k = List.length items <-> label_free sc items)
  /\ (fst out = Raise TypeError <-> ~ label_free sc items)
  /\ (sc = None \/ sc = Some [] ->
      plot_calls evs
      = map (fun entry => (iterations (snd entry), exploitability (snd entry),
                           fst entry, default_style)) items).
Proof.
  intros out evs items k. subst k evs out items.
  rewrite plot_convergence_calls, plot_convergence_events, length_map.
  cbn [fst snd bench].
  destruct (drawn_prefix sc (results (bench w))) as (P1 & P2 & P3).
  cbn zeta in P1, P2, P3.
  assert (Hall : all_drawn sc (results (bench w)) = true
                 <-> List.length (drawn sc (results (bench w)))
                     = List.length (results (bench w)))
    by (unfold all_drawn; apply Nat.eqb_eq).
  split; [reflexivity|]. split; [now rewrite <- P1|]. split.
  { intros xs ys name st Hin.
    apply in_map_iff in Hin as (entry & Heq & Hin).
    rewrite P1 in Hin.
    unfold label_free in P2. rewrite Forall_forall in P2.
    specialize (P2 entry Hin). unfold takes_label in P2.
    unfold curve_of in Heq. injection Heq as _ _ <- <-.
    split; [exact P2|]. unfold pick_style. repeat split.
    - intros cfg st' -> Hget. now rewrite Hget.
    - intros cfg -> Hget. now rewrite Hget.
    - now intros ->. }
  split; [exact P3|]. split; [now rewrite <- Hall, all_drawn_label_free|].
  split.
  { rewrite <- all_drawn_label_free.
    destruct (all_drawn sc (results (bench w))); split;
      try discriminate; try congruence; intros H; now elim H. }
  intros Hsc.
  assert (Hdefault : forall name, pick_style sc name = default_style)
    by (destruct Hsc as [->| ->]; reflexivity).
  assert (Hfree : label_free sc (results (bench w))).
  { apply Forall_forall. intros entry _. unfold takes_label.
    now rewrite Hdefault. }
  rewrite (drawn_all _ _ Hfree). apply map_ext. intros entry.
  unfold curve_of. now rewrite Hdefault.
Qed.

(** X13.  [plot_convergence] opens the figure first.  When no stored run
    has a style with a ["label"] key, both axes are switched to a log
    scale if [log_scale] is set and neither if it is not; and when
    moreover [log_scale] is off, or there are stored runs and each has a
    checkpoint to draw, the call returns, having saved the figure exactly
    when it was given a non-empty path, once, and said so, and having
    shown the figure last, after any saving; with no path or the empty
    string nothing is saved and nothing is said.  When a stored run has
    such a style the call raises [TypeError] in its loop: no axis is
    switched, there is no legend, nothing is saved or said, and the
    figure is not shown. *)
Theorem plot_saving_and_scales save_path log_scale figsize sc w :
  let out := plot_convergence save_path log_scale figsize sc w in
  let evs := emitted (plot_convergence save_path log_scale figsize sc) w in
  let items := results (bench w) in
  hd_error evs = Some (Plt (figure figsize))
  /\ (label_free sc items ->
      sets_xscale evs = log_scale
      /\ sets_yscale evs = log_scale
      /\ (log_scale = false
          \/ (items <> []
              /\ Forall (fun entry => has_checkpoint (snd entry)) items) ->
          fst out = Ok tt
          /\ saved_paths evs
             = match save_path with
               | Some path => if String.eqb path "" then [] else [path]
               | None => []
               end
          /\ saved_notices evs = saved_paths evs
          /\ py_last evs = Ok (Plt show)))
  /\ (~ label_free sc items ->
      fst out = Raise TypeError
      /\ sets_xscale evs = false
      /\ sets_yscale evs = false
      /\ saved_paths evs = []
      /\ saved_notices evs = []
      /\ ~ In (Plt legend) evs
      /\ ~ In (Plt show) evs).
Proof.
  intros out evs items. subst evs out items.
  rewrite plot_convergence_emitted, plot_convergence_events. cbn [fst].
  unfold plot_events.
  assert (Hcurves :
    forall items : dict run_data,
      saved_paths (map (curve_event sc) items) = []
      /\ saved_notices (map (curve_event sc) items) = []
      /\ sets_xscale (map (curve_event sc) items) = false
      /\ sets_yscale (map (curve_event sc) items) = false).
  { induction items as [|entry items (I1 & I2 & I3 & I4)]; [easy|].
    repeat split; assumption. }
  destruct (Hcurves (drawn sc (results (bench w)))) as (H1 & H2 & H3 & H4).
  split; [reflexivity|]. split.
  - intros Hfree. apply all_drawn_label_free in Hfree as Hall.
    rewrite Hall. unfold plot_finish. split; [|split].
    + unfold sets_xscale in *. rewrite !existsb_app, H3.
      destruct log_scale, save_path as [path|]; cbn [truthy_path];
        try destruct (String.eqb path ""); reflexivity.
    + unfold sets_yscale in *. rewrite !existsb_app, H4.
      destruct log_scale, save_path as [path|]; cbn [truthy_path];
        try destruct (String.eqb path ""); reflexivity.
    + intros _. split; [reflexivity|]. split; [|split].
      * unfold saved_paths in *. rewrite !flat_map_app, H1.
        destruct log_scale, save_path as [path|]; cbn [truthy_path];
          try destruct (String.eqb path ""); reflexivity.
      * unfold saved_paths, saved_notices in *. rewrite !flat_map_app, H1, H2.
        destruct log_scale, save_path as [path|]; cbn [truthy_path];
          try destruct (String.eqb path ""); reflexivity.
      * rewrite !app_assoc. apply py_last_app.
  - intros Hnot.
    assert (Hall : all_drawn sc (results (bench w)) = false).
    { destruct (all_drawn sc (results (bench w))) eqn:E; [|reflexivity].
      elim Hnot. now apply all_drawn_label_free. }
    rewrite Hall, app_nil_r.
    assert (Hin : forall e, In e (map (curve_event sc)
                                      (drawn sc (results (bench w)))) ->
                            exists xs ys label st, e = Plt (plot xs ys label st)).
    { intros e He. apply in_map_iff in He as (entry & <- & _).
      unfold curve_event. now do 4 eexists. }
    split; [reflexivity|].
    split; [unfold sets_xscale in *; now rewrite existsb_app, H3|].
    split; [unfold sets_yscale in *; now rewrite existsb_app, H4|].
    split; [unfold saved_paths in *; now rewrite flat_map_app, H1|].
    split; [unfold saved_notices in *; now rewrite flat_map_app, H2|].
    split; intros He; apply in_app_or in He as [He|He];
      try (cbn in He; intuition discriminate);
      apply Hin in He as (xs & ys & label & st & He); discriminate.
Qed.

(** X14.  In a session, [print_summary] returns exactly when every stored
    run has at least one iteration count, that is when no run was made
    with a schedule of no block; otherwise it raises [IndexError], and it
    never raises anything else. *)
Theorem summary_returns_iff w :
  session w ->
  (fst (print_summary w) = Ok tt
   <-> Forall (fun entry => iterations (snd entry) <> []) (results (bench w)))
  /\ (fst (print_summary w) = Ok tt
      \/ fst (print_summary w) = Raise IndexError).
Proof.
  intros Hs. apply session_balanced in Hs.
  rewrite print_summary_spec. cbn [fst].
  assert (Hcp : Forall (fun entry => has_checkpoint (snd entry))
                       (results (bench w))
                <-> Forall (fun entry => iterations (snd entry) <> [])
                           (results (bench w))).
  { unfold balanced in Hs. rewrite !Forall_forall in *. split.
    - intros H entry Hin. now destruct (H entry Hin).
    - intros H entry Hin. split; [now apply H|].
      specialize (H entry Hin). specialize (Hs entry Hin).
      destruct (iterations (snd entry)); [congruence|].
      destruct (exploitability (snd entry)); [discriminate|congruence]. }
  rewrite <- Hcp, <- printed_rows_complete.
  destruct (Nat.eqb_spec (List.length (printed_rows (results (bench w))))
                         (List.length (results (bench w)))) as [E|E].
  - split; [tauto|now left].
  - split; [|now right]. split; [discriminate|contradiction].
Qed.

(** X15.  [print_summary] always starts with the five lines of the
    heading.  The rows that follow are those of the runs at the start of
    the store, up to the first run without a last checkpoint; if there is
    such a run the call stops there, otherwise every run has its row.  The
    closing rule is the last line exactly when the call returns. *)
Theorem summary_shape w :
  let evs := emitted print_summary w in
  let k := List.length (summary_table evs) in
  firstn 5 evs = summary_header (bench w)
  /\ summary_table evs = map summary_row_of (firstn k (results (bench w)))
  /\ Forall (fun entry => has_checkpoint (snd entry))
            (firstn k (results (bench w)))
  /\ ((k < List.length (results (bench w)))%nat ->
      exists entry, nth_error (results (bench w)) k = Some entry
                    /\ ~ has_checkpoint (snd entry))
  /\ (fst (print_summary w) = Ok tt <-> k = List.length (results (bench w)))
  /\ (fst (print_summary w) = Ok tt <-> py_last evs = Ok (Print (Rule "=" 80))).
Proof.
  intros evs k. subst k evs.
  rewrite print_summary_table, print_summary_emitted, print_summary_spec.
  cbn [fst].
  destruct (printed_rows_prefix (results (bench w))) as (H1 & H2 & H3).
  cbn zeta in *.
  split; [reflexivity|]. split; [exact H1|]. split; [exact H2|].
  split; [exact H3|].
  destruct (Nat.eqb_spec (List.length (printed_rows (results (bench w))))
                         (List.length (results (bench w)))) as [E|E].
  - split; [tauto|]. split; [intros _|reflexivity].
    rewrite !app_assoc. apply py_last_app.
  - split; [split; [discriminate|contradiction]|].
    split; [discriminate|]. rewrite app_nil_r.
    destruct (printed_rows (results (bench w))) as [|row rows] eqn:Er
      using rev_ind.
    + cbn. discriminate.
    + rewrite map_app, app_assoc. cbn [map]. rewrite py_last_app.
      destruct row as [[n a] b]. discriminate.
Qed.

(** X16.  The reports can be repeated and mixed freely: after a
    [print_summary] or a [plot_convergence], whether it returned or
    raised, each of the two sends out exactly what it would have sent out
    before, with the same outcome. *)
Theorem reports_repeat save_path log_scale figsize sc w after :
  after = snd (print_summary w)
  \/ after = snd (plot_convergence save_path log_scale figsize sc w) ->
  emitted print_summary after = emitted print_summary w
  /\ fst (print_summary after) = fst (print_summary w)
  /\ (forall save_path' log_scale' figsize' sc',
        emitted (plot_convergence save_path' log_scale' figsize' sc') after
        = emitted (plot_convergence save_path' log_scale' figsize' sc') w).
Proof.
  intros Hafter.
  assert (Hb : bench after = bench w).
  { destruct Hafter as [-> | ->].
    - now rewrite print_summary_spec.
    - now rewrite plot_convergence_events. }
  rewrite !print_summary_emitted, !print_summary_spec, Hb.
  repeat split. intros. now rewrite !plot_convergence_emitted, Hb.
Qed.
End ReportMore.

(** * More about the scripts *)
Section ScriptMore.
Context {SC : Solver}.

Lemma harness_events_app (xs ys : list script_event) :
  harness_events (xs ++ ys) = harness_events xs ++ harness_events ys.
Proof. apply flat_map_app. Qed.

Lemma script_lines_app (xs ys : list script_event) :
  script_lines (xs ++ ys) = script_lines xs ++ script_lines ys.
Proof. apply flat_map_app. Qed.

Lemma script_lines_did (evs : list event) :
  script_lines (map Did evs) = [].
Proof.
  unfold script_lines. induction evs as [|e evs IH]; [reflexivity|].
  cbn [map flat_map app]. exact IH.
Qed.

Lemma harness_events_did (evs : list event) :
  harness_events (map Did evs) = evs.
Proof.
  unfold harness_events. induction evs as [|e evs IH]; [reflexivity|].
  cbn [map flat_map app]. now rewrite IH.
Qed.

Lemma flat_map_flat_map_nil {A B C : Type} (g : B -> list C)
  (h : A -> list B) (l : list A) :
  (forall a, flat_map g (h a) = []) -> flat_map g (flat_map h l) = [].
Proof.
  intros H. induction l as [|a l IH]; [reflexivity|].
  cbn [flat_map]. now rewrite flat_map_app, H, IH.
Qed.

(** A run of at least one block has a last checkpoint: the block count
    times the interval, with the metric of the solver as it ends. *)
Lemma run_record_last c r kw interval n name :
  (0 < n)%nat ->
  has_checkpoint (run_record c r kw interval n)
  /\ summary_row_of (name, run_record c r kw interval n)
     = (name, Z.of_nat n * interval, metric (solver_after c r kw interval n)).
Proof.
  intros Hn. unfold has_checkpoint, summary_row_of.
  cbn [fst snd iterations exploitability run_record].
  replace n with (S (Nat.pred n)) at 1 2 3 4 by lia.
  rewrite seq_S, !map_app. cbn [map Nat.add]. rewrite !last_last.
  repeat split.
  - intros H. now apply app_eq_nil in H as [_ H].
  - intros H. now apply app_eq_nil in H as [_ H].
  - repeat f_equal; lia.
Qed.

(** A documented triple, run on a benchmark object written out. *)
Lemma run_triple c name kw total interval r g d tr :
  interval <> 0 ->
  run_config [IClass c; IName name; IKwargs kw] total interval
             (mk_state (mk_benchmark r g d) tr)
  = (Ok tt,
     mk_state
       (mk_benchmark r g
          (dict_set name
             (run_record c r kw interval (Z.to_nat (total / interval))) d))
       (tr ++ run_prologue (mk_benchmark r g d) name kw
           ++ flat_map (block_events c r kw interval)
                       (seq 0 (Z.to_nat (total / interval))))).
Proof.
  intros Hi. unfold run_config. cbn [List.length Nat.eqb].
  unfold bind. now rewrite run_algorithm_ok by exact Hi.
Qed.

Section MainFacts.
Variable leduc_rules : rules.
Variables OutcomeSamplingCFR RetrospectiveSamplingCFR : algorithm_class.
Variable lookback_depth : Z -> kwargs.

Let n : nat := 100.
Let b : CFRBenchmark := init leduc_rules "Leduc Poker".
Let record (c : algorithm_class) (kw : kwargs) : run_data :=
  run_record c leduc_rules kw 10000 n.
Let run_events (c : algorithm_class) (name : string) (kw : kwargs)
  : list event :=
  run_prologue b name kw
  ++ flat_map (block_events c leduc_rules kw 10000) (seq 0 n).
Let store : dict run_data :=
  [("Outcome Sampling CFR"%string, record OutcomeSamplingCFR empty_kwargs);
   ("RS-CFR (k=1)"%string, record RetrospectiveSamplingCFR (lookback_depth 1));
   ("RS-CFR (k=2)"%string, record RetrospectiveSamplingCFR (lookback_depth 2));
   ("RS-CFR (k=3)"%string, record RetrospectiveSamplingCFR (lookback_depth 3))].

Lemma main_compare :
  compare_algorithms
    (algorithms OutcomeSamplingCFR RetrospectiveSamplingCFR lookback_depth)
    1000000 10000 (mk_state b [])
  = (Ok tt,
     mk_state (mk_benchmark leduc_rules "Leduc Poker" store)
       (run_events OutcomeSamplingCFR "Outcome Sampling CFR" empty_kwargs
        ++ run_events RetrospectiveSamplingCFR "RS-CFR (k=1)" (lookback_depth 1)
        ++ run_events RetrospectiveSamplingCFR "RS-CFR (k=2)" (lookback_depth 2)
        ++ run_events RetrospectiveSamplingCFR "RS-CFR (k=3)" (lookback_depth 3))).
Proof.
  unfold algorithms, b, init. cbn [compare_algorithms].
  unfold bind at 1. rewrite run_triple by discriminate.
  unfold bind at 1. rewrite run_triple by discriminate.
  unfold bind at 1. rewrite run_triple by discriminate.
  unfold bind at 1. rewrite run_triple by discriminate.
  unfold ret.
  change (Z.to_nat (1000000 / 10000)) with n.
  rewrite <- !app_assoc.
  reflexivity.
Qed.
Let rows : list (string * Z * num) :=
  [("Outcome Sampling CFR"%string, 1000000,
    metric (solver_after OutcomeSamplingCFR leduc_rules empty_kwargs
                         10000 n));
   ("RS-CFR (k=1)"%string, 1000000,
    metric (solver_after RetrospectiveSamplingCFR leduc_rules
                         (lookback_depth 1) 10000 n));
   ("RS-CFR (k=2)"%string, 1000000,
    metric (solver_after RetrospectiveSamplingCFR leduc_rules
                         (lookback_depth 2) 10000 n));
   ("RS-CFR (k=3)"%string, 1000000,
    metric (solver_after RetrospectiveSamplingCFR leduc_rules
                         (lookback_depth 3) 10000 n))].

Lemma store_rows :
  Forall (fun entry => has_checkpoint (snd entry)) store
  /\ printed_rows store = rows.
Proof.
  assert (Hn : (0 < n)%nat) by (unfold n; lia).
  assert (Hall : Forall (fun entry => has_checkpoint (snd entry)) store).
  { unfold store, record. repeat constructor;
      apply (run_record_last _ _ _ _ _ ""%string Hn). }
  split; [exact Hall|].
  rewrite (printed_rows_all _ Hall).
  change (map summary_row_of store = rows).
  unfold store, record, rows. cbn [map].
  now rewrite !(fun c kw name =>
                  proj2 (run_record_last c leduc_rules kw 10000 n name Hn)).
Qed.

Let all_runs : list event :=
  run_events OutcomeSamplingCFR "Outcome Sampling CFR" empty_kwargs
  ++ run_events RetrospectiveSamplingCFR "RS-CFR (k=1)" (lookback_depth 1)
  ++ run_events RetrospectiveSamplingCFR "RS-CFR (k=2)" (lookback_depth 2)
  ++ run_events RetrospectiveSamplingCFR "RS-CFR (k=3)" (lookback_depth 3).

Let reports : list event :=
  (summary_header b ++ map row_event rows ++ [Print (Rule "=" 80)])
  ++ plot_events (Some "results/leduc_comparison.png"%string) true (10, 6) None
                 (mk_benchmark leduc_rules "Leduc Poker" store).

(** What the script sends out, in full. *)
Lemma main_output :
  main leduc_rules OutcomeSamplingCFR RetrospectiveSamplingCFR lookback_depth
  = (Ok tt,
     [Said SettingUp; Said (RunningAlgorithms 4 1000000);
      Said (CheckpointsEvery 10000)]
     ++ map Did all_runs
     ++ [Said Separator]
     ++ map Did (summary_header b ++ map row_event rows
                 ++ [Print (Rule "=" 80)])
     ++ [Said GeneratingPlot]
     ++ map Did (plot_events (Some "results/leduc_comparison.png"%string)
                             true (10, 6) None
                             (mk_benchmark leduc_rules "Leduc Poker" store))
     ++ [Said (PlotSavedTo "results/leduc_comparison.png");
         Said BenchmarkComplete]).
Proof.
  unfold main, then_, say, call. cbn [fst snd].
  fold b. rewrite main_compare. cbn [fst snd bench trace].
  rewrite print_summary_spec. cbn [bench results trace].
  destruct store_rows as [_ Hrows]. rewrite Hrows.
  change (List.length rows =? List.length store)%nat with true.
  rewrite plot_convergence_events. cbn [fst snd bench trace app].
  rewrite <- !app_assoc. reflexivity.
Qed.

Lemma main_harness_events :
  harness_events
    (snd (main leduc_rules OutcomeSamplingCFR RetrospectiveSamplingCFR
               lookback_depth))
  = all_runs ++ reports.
Proof.
  rewrite main_output. cbn [snd].
  rewrite !harness_events_app, !harness_events_did.
  unfold reports. rewrite <- !app_assoc. reflexivity.
Qed.

Lemma run_events_read c name kw :
  constructions (run_events c name kw) = [kw]
  /\ run_calls (run_events c name kw) = repeat 10000 n
  /\ summary_table (run_events c name kw) = []
  /\ plot_labels (run_events c name kw) = []
  /\ saved_paths (run_events c name kw) = []
  /\ saved_notices (run_events c name kw) = []
  /\ sets_xscale (run_events c name kw) = false
  /\ sets_yscale (run_events c name kw) = false.
Proof.
  unfold run_events.
  rewrite constructions_app, constructions_blocks.
  rewrite run_calls_app, run_calls_blocks, length_seq.
  unfold summary_table, plot_labels, saved_paths, saved_notices,
    sets_xscale, sets_yscale.
  rewrite !flat_map_app, !existsb_app, !flat_map_flat_map_nil
    by reflexivity.
  repeat split.
Qed.

(** X17.  [main] never meets one of the harness's exceptions, whatever the
    solvers are.  It builds four solvers, with the options as listed, and
    advances each by one hundred blocks of 10000 iterations; the summary
    has the four algorithms in the order of the list, each at 1000000
    iterations with the metric of its solver as it ends. *)
Theorem main_completes :
  let run := main leduc_rules OutcomeSamplingCFR RetrospectiveSamplingCFR
                  lookback_depth in
  let evs := harness_events (snd run) in
  fst run = Ok tt
  /\ constructions evs
     = [empty_kwargs; lookback_depth 1; lookback_depth 2; lookback_depth 3]
  /\ run_calls evs = repeat 10000 400
  /\ summary_table evs
     = [("Outcome Sampling CFR"%string, 1000000,
         metric (solver_after OutcomeSamplingCFR leduc_rules empty_kwargs
                              10000 100));
        ("RS-CFR (k=1)"%string, 1000000,
         metric (solver_after RetrospectiveSamplingCFR leduc_rules
                              (lookback_depth 1) 10000 100));
        ("RS-CFR (k=2)"%string, 1000000,
         metric (solver_after RetrospectiveSamplingCFR leduc_rules
                              (lookback_depth 2) 10000 100));
        ("RS-CFR (k=3)"%string, 1000000,
         metric (solver_after RetrospectiveSamplingCFR leduc_rules
                              (lookback_depth 3) 10000 100))].
Proof.
  intros run evs. subst evs run. rewrite main_harness_events.
  split; [now rewrite main_output|].
  unfold all_runs.
  rewrite !constructions_app, !run_calls_app, !summary_table_app.
  rewrite !(fun c name kw => proj1 (run_events_read c name kw)).
  rewrite !(fun c name kw => proj1 (proj2 (run_events_read c name kw))).
  rewrite !(fun c name kw =>
              proj1 (proj2 (proj2 (run_events_read c name kw)))).
  split; [reflexivity|]. split; [|reflexivity].
  cbn [app]. rewrite <- !repeat_app. reflexivity.
Qed.

(** X18.  [main] plots the four algorithms in the order of the list, on
    log-log axes, and saves the figure once, to
    [results/leduc_comparison.png].  That the plot was saved is said
    twice: by [plot_convergence] and then again by the script, whose own
    lines are the seven given here. *)
Theorem main_plot :
  let run := main leduc_rules OutcomeSamplingCFR RetrospectiveSamplingCFR
                  lookback_depth in
  let evs := harness_events (snd run) in
  plot_labels evs
  = ["Outcome Sampling CFR"; "RS-CFR (k=1)"; "RS-CFR (k=2)";
     "RS-CFR (k=3)"]%string
  /\ saved_paths evs = ["results/leduc_comparison.png"%string]
  /\ saved_notices evs = ["results/leduc_comparison.png"%string]
  /\ sets_xscale evs = true /\ sets_yscale evs = true
  /\ script_lines (snd run)
     = [SettingUp; RunningAlgorithms 4 1000000; CheckpointsEvery 10000;
        Separator; GeneratingPlot;
        PlotSavedTo "results/leduc_comparison.png"; BenchmarkComplete].
Proof.
  intros run evs. subst evs run. rewrite main_harness_events.
  unfold all_runs, plot_labels, saved_paths, saved_notices, sets_xscale,
    sets_yscale.
  rewrite !flat_map_app, !existsb_app.
  pose proof run_events_read as H.
  unfold plot_labels, saved_paths, saved_notices, sets_xscale, sets_yscale in H.
  rewrite !(fun c name kw =>
     proj1 (proj2 (proj2 (proj2 (H c name kw))))).
  rewrite !(fun c name kw =>
     proj1 (proj2 (proj2 (proj2 (proj2 (H c name kw)))))).
  rewrite !(fun c name kw =>
     proj1 (proj2 (proj2 (proj2 (proj2 (proj2 (H c name kw))))))).
  rewrite !(fun c name kw =>
     proj1 (proj2 (proj2 (proj2 (proj2 (proj2 (proj2 (H c name kw)))))))).
  rewrite !(fun c name kw =>
     proj2 (proj2 (proj2 (proj2 (proj2 (proj2 (proj2 (H c name kw)))))))).
  split; [reflexivity|]. split; [reflexivity|]. split; [reflexivity|].
  split; [reflexivity|]. split; [reflexivity|].
  rewrite main_output. cbn [snd].
  rewrite !script_lines_app, !script_lines_did. reflexivity.
Qed.
End MainFacts.

(** The loop of the test script from block [a] on, [n] blocks. *)
Lemma test_blocks_from (ipb : Z) (n a : nat) (cfr : solver) :
  let out := test_blocks ipb (map Z.of_nat (seq a n)) cfr in
  iteration_labels out = map (fun k => Z.of_nat k * ipb) (seq a n)
  /\ exploitability_totals out
     = map (fun j => metric (Nat.iter (S j) (fun s => run s ipb) cfr)) (seq 0 n)
  /\ test_run_calls out = repeat ipb n.
Proof.
  revert a cfr. induction n as [|n IH]; intros a cfr; [repeat split|].
  cbn zeta. cbn [seq map test_blocks].
  destruct (IH (S a) (run cfr ipb)) as (H1 & H2 & H3). cbn zeta in *.
  unfold iteration_labels, exploitability_totals, test_run_calls in *.
  cbn [flat_map app]. rewrite H1, H2, H3.
  rewrite <- (seq_shift n 0), map_map.
  repeat split. cbn [Nat.iter]. f_equal.
  apply map_ext. intros j. now rewrite iter_run_shift.
Qed.

Lemma test_script_read leduc c ipb blocks :
  let out := test_script leduc c ipb blocks in
  let built := c leduc empty_kwargs in
  let n := Z.to_nat blocks in
  iteration_labels out = map (fun k => Z.of_nat k * ipb) (seq 0 n)
  /\ exploitability_totals out
     = map (fun j => metric (Nat.iter (S j) (fun s => run s ipb) built))
           (seq 0 n)
  /\ test_run_calls out = repeat ipb n.
Proof.
  cbn zeta. unfold test_script, range.
  destruct (test_blocks_from ipb (Z.to_nat blocks) 0 (c leduc empty_kwargs))
    as (H1 & H2 & H3). cbn zeta in *.
  unfold iteration_labels, exploitability_totals, test_run_calls in *.
  rewrite !flat_map_app, H1, H2, H3. cbn [flat_map app].
  now rewrite !app_nil_r.
Qed.

Lemma solver_calls_blocks c r kw interval (ks : list nat) :
  solver_calls (flat_map (block_events c r kw interval) ks)
  = List.concat (repeat [CallRun interval; CallBestResponse]
                         (List.length ks)).
Proof.
  unfold solver_calls.
  induction ks as [|k ks IH]; [reflexivity|].
  cbn [flat_map block_events app List.length repeat List.concat]. now rewrite IH.
Qed.

Lemma test_solver_calls_blocks (ipb : Z) (blocks : list Z) (cfr : solver) :
  test_solver_calls (test_blocks ipb blocks cfr)
  = List.concat (repeat [CallRun ipb; CallBestResponse]
                         (List.length blocks)).
Proof.
  unfold test_solver_calls.
  revert cfr. induction blocks as [|block blocks IH]; intros cfr;
    [reflexivity|].
  cbn [test_blocks flat_map app List.length repeat List.concat]. now rewrite IH.
Qed.

(** X19.  The test script and the harness drive a solver in the same way.
    For a block size that is not zero and a block count that is not
    negative, [run_algorithm] on a budget of that many blocks returns, and
    the script makes the calls [run_algorithm] makes on its solver, in the
    same order: for each block one [cfr.run] of the block size and then
    one [best_response()].  The script prints one total per block and
    [run_algorithm] records one metric value per block. *)
Theorem test_script_matches_run_algorithm c name ipb blocks w :
  ipb <> 0 -> 0 <= blocks ->
  let out := test_script (game_rules (bench w)) c ipb blocks in
  let evs := emitted (run_algorithm c name (blocks * ipb) ipb None) w in
  exists data w',
    run_algorithm c name (blocks * ipb) ipb None w = (Ok data, w')
    /\ test_run_calls out = run_calls evs
    /\ test_solver_calls out = solver_calls evs
    /\ solver_calls evs
       = List.concat (repeat [CallRun ipb; CallBestResponse]
                              (Z.to_nat blocks))
    /\ List.length (exploitability_totals out) = Z.to_nat blocks
    /\ List.length (exploitability data) = Z.to_nat blocks.
Proof.
  intros Hi Hb out evs. subst out evs.
  destruct (test_script_read (game_rules (bench w)) c ipb blocks)
    as (_ & H2 & H3). cbn zeta in *.
  rewrite run_algorithm_emitted by exact Hi.
  rewrite run_algorithm_ok by exact Hi.
  rewrite Z.div_mul by exact Hi.
  do 2 eexists. split; [reflexivity|].
  cbn [exploitability run_record given_kwargs].
  rewrite run_calls_app, run_calls_blocks, length_seq.
  assert (Hcalls :
    solver_calls
      (run_prologue (bench w) name empty_kwargs
       ++ flat_map (block_events c (game_rules (bench w)) empty_kwargs ipb)
                   (seq 0 (Z.to_nat blocks)))
    = List.concat (repeat [CallRun ipb; CallBestResponse]
                           (Z.to_nat blocks))).
  { unfold solver_calls at 1. rewrite flat_map_app.
    fold (solver_calls
            (flat_map (block_events c (game_rules (bench w)) empty_kwargs ipb)
                      (seq 0 (Z.to_nat blocks)))).
    now rewrite solver_calls_blocks, length_seq. }
  split; [exact H3|]. split.
  - rewrite Hcalls. unfold test_script, test_solver_calls.
    rewrite !flat_map_app.
    fold (test_solver_calls
            (test_blocks ipb (range blocks)
                         (c (game_rules (bench w)) empty_kwargs))).
    rewrite test_solver_calls_blocks, range_length. cbn [flat_map app].
    now rewrite app_nil_r.
  - split; [exact Hcalls|].
    split; [now rewrite H2, length_map, length_seq|].
    now rewrite length_map, length_seq.
Qed.

(** X20.  The test script prints the iteration count before it runs the
    block: its labels are 0, one block, two blocks and so on, each one
    block short of the count [run_algorithm] records for the same
    checkpoint, and the iterations run in all are never one of them.  As
    the script stands the labels go from 0 to 9000 and 10000 iterations
    are run. *)
Theorem test_script_labels c name ipb blocks w :
  ipb <> 0 -> 0 <= blocks ->
  let out := test_script (game_rules (bench w)) c ipb blocks in
  exists data w',
    run_algorithm c name (blocks * ipb) ipb None w = (Ok data, w')
    /\ iteration_labels out = map (fun count => count - ipb) (iterations data)
    /\ ~ In (blocks * ipb) (iteration_labels out)
    /\ iteration_labels (test_rscfr (game_rules (bench w)) c)
       = [0; 1000; 2000; 3000; 4000; 5000; 6000; 7000; 8000; 9000]
    /\ fold_right Z.add 0 (test_run_calls (test_rscfr (game_rules (bench w)) c))
       = 10000.
Proof.
  intros Hi Hb out. subst out.
  destruct (test_script_read (game_rules (bench w)) c ipb blocks)
    as (H1 & _ & _). cbn zeta in *.
  rewrite run_algorithm_ok by exact Hi.
  rewrite Z.div_mul by exact Hi.
  do 2 eexists. split; [reflexivity|].
  cbn [iterations run_record]. rewrite H1, map_map.
  split; [apply map_ext; intros k; lia|]. split.
  - intros Hin. apply in_map_iff in Hin as (k & Hk & Hin).
    apply in_seq in Hin. nia.
  - unfold test_rscfr.
    destruct (test_script_read (game_rules (bench w)) c 1000 10)
      as (L & _ & R). cbn zeta in *. rewrite L, R. split; reflexivity.
Qed.
End ScriptMore.

(** * A small solver, and the theorems at work on it *)
Module Example.

(** A solver that only counts: its state is a bias fixed at construction
    (rules plus option) and the iterations run so far; its two players'
    values are the bias and the count. *)
#[local] Instance counting : Solver := {|
  rules := Z;
  kwargs := Z;
  solver := Z * Z;
  profile := Z * Z;
  strategy := unit;
  num := Z;
  empty_kwargs := 0;
  run := fun cfr n => (fst cfr, snd cfr + n);
  profile_of := fun cfr => cfr;
  best_response := fun p => (tt, [fst p; snd p]);
  num_zero := 0;
  num_add := Z.add
|}.

Definition counter : algorithm_class := fun r kw => (r + kw, 0).

(** [CFRBenchmark(3, "Leduc")], nothing printed yet. *)
Definition fresh : state := mk_state (init 3 "Leduc") [].

Definition run_once (name : string) (total interval : Z) (w : state) : state :=
  snd (run_algorithm counter name total interval None w).

Definition pair (name : string) : config := [IClass counter; IName name].
Definition triple (name : string) (kw : Z) : config :=
  [IClass counter; IName name; IKwargs kw].
Definition quadruple (name : string) (kw : Z) : config :=
  [IClass counter; IName name; IKwargs kw; IKwargs kw].

Lemma run_algorithm_schedule_witness :
  0 < 10 /\ 10 <= 25
  /\ exists data w',
       run_algorithm counter "x" 25 10 None fresh = (Ok data, w')
       /\ iterations data = [10; 20]
       /\ iterations_executed
            (emitted (run_algorithm counter "x" 25 10 None) fresh) = 20.
Proof.
  split; [lia|]. split; [lia|].
  destruct (run_algorithm_schedule counter "x" 25 10 None fresh)
    as (data & w' & Hrun & _ & _ & _ & _ & _ & Hexec & _); [lia|lia|].
  exists data, w'. split; [exact Hrun|]. split; [|exact Hexec].
  vm_compute in Hrun. now injection Hrun as <- _.
Defined.

Lemma checkpoint_metric_witness :
  10 <> 0
  /\ exists data w',
       run_algorithm counter "x" 25 10 (Some 4) fresh = (Ok data, w')
       /\ nth 1 (exploitability data) 0 = 7 + 20.
Proof.
  split; [lia|].
  destruct (checkpoint_metric counter "x" 25 10 (Some 4) fresh)
    as (data & w' & Hrun & _ & Hnth); [lia|].
  exists data, w'. split; [exact Hrun|].
  refine (eq_trans (Hnth 1%nat _) _); [vm_compute; lia|reflexivity].
Defined.

Lemma run_algorithm_blocks_witness :
  10 <> 0
  /\ constructions (emitted (run_algorithm counter "x" 25 10 (Some 4)) fresh)
     = [4]
  /\ exists data,
       fst (run_algorithm counter "x" 25 10 (Some 4) fresh) = Ok data
       /\ combine (iterations data) (exploitability data)
          = [(10, 17); (20, 27)].
Proof.
  split; [lia|].
  destruct (run_algorithm_blocks counter "x" 25 10 (Some 4) fresh)
    as (Hc & _ & Hblocks).
  split; [exact Hc|].
  destruct Hblocks as (data & w' & Hrun & _ & Hpairs); [lia|].
  exists data. rewrite Hrun. split; [reflexivity|].
  rewrite Hpairs. reflexivity.
Defined.

Lemma degenerate_schedule_witness :
  0 < 2 /\ 1 < 2
  /\ exists data,
       fst (run_algorithm counter "x" 1 2 None fresh) = Ok data
       /\ iterations data = [] /\ exploitability data = []
       /\ label_free None (results (bench (run_once "x" 1 2 fresh)))
       /\ In ([], [], "x"%string, default_style)
             (plot_calls (emitted (plot_convergence None false (10, 6) None)
                                  (run_once "x" 1 2 fresh)))
       /\ In "x"%string
             (plot_labels (emitted (plot_convergence None false (10, 6) None)
                                   (run_once "x" 1 2 fresh))).
Proof.
  split; [lia|]. split; [lia|].
  destruct (degenerate_schedule counter "x" 1 2 None fresh)
    as (data & w' & Hrun & Hi & He & _ & _ & Hplot & _); [lia|lia|].
  assert (Hfree : label_free None (results (bench w'))).
  { apply Forall_forall. intros entry _. reflexivity. }
  exists data. unfold run_once. rewrite Hrun. cbn [fst snd].
  split; [reflexivity|]. split; [exact Hi|]. split; [exact He|].
  split; [exact Hfree|].
  exact (Hplot None false (10, 6) None Hfree).
Defined.

(** The claim C2 as it is worded fails: after a run with two checkpoints,
    the run with interval 2 and budget 1 records nothing, yet its name is
    in the store and [plot_convergence], on linear axes, calls [plt.plot]
    for it, with no point and its name as the label, and returns. *)
Lemma degenerate_run_is_plotted :
  let w' := run_once "x" 1 2 (run_once "a" 10 5 fresh) in
  0 < 2 /\ 1 < 2
  /\ fst (run_algorithm counter "x" 1 2 None (run_once "a" 10 5 fresh))
     = Ok (mk_run_data [] [] (3, 0))
  /\ keys (results (bench w')) = ["a"; "x"]%string
  /\ plot_calls (emitted (plot_convergence None false (10, 6) None) w')
     = [([5; 10], [8; 13], "a", [("linewidth", "2")]);
        ([], [], "x", [("linewidth", "2")])]%string
  /\ fst (plot_convergence None false (10, 6) None w') = Ok tt
  /\ ~ ~ In "x"%string
          (plot_labels (emitted (plot_convergence None false (10, 6) None) w')).
Proof.
  vm_compute. repeat split. tauto.
Qed.

Lemma rerun_overwrites_witness :
  exists data1 data2,
    fst (run_algorithm counter "x" 30 10 None fresh) = Ok data1
    /\ fst (run_algorithm counter "x" 10 5 (Some 1) (run_once "x" 30 10 fresh))
       = Ok data2
    /\ iterations data1 = [10; 20; 30]
    /\ dict_get "x" (results (bench (snd (run_algorithm counter "x" 10 5 (Some 1)
                                            (run_once "x" 30 10 fresh)))))
       = Some data2
    /\ iterations data2 = [5; 10].
Proof.
  destruct (run_algorithm counter "x" 30 10 None fresh) as [r1 w1] eqn:E1.
  destruct (run_algorithm counter "x" 10 5 (Some 1) w1) as [r2 w2] eqn:E2.
  assert (Hr1 : exists d, r1 = Ok d /\ iterations d = [10; 20; 30]).
  { vm_compute in E1. injection E1 as <- _. eexists. split; reflexivity. }
  destruct Hr1 as (data1 & -> & Hits1).
  assert (Hr2 : exists d, r2 = Ok d /\ iterations d = [5; 10]).
  { injection E1 as <-. vm_compute in E2. injection E2 as <- _.
    eexists. split; reflexivity. }
  destruct Hr2 as (data2 & -> & Hits2).
  destruct (rerun_overwrites counter counter "x" 30 10 None 10 5 (Some 1)
              fresh data1 w1 data2 w2 E1 E2) as (_ & Hget & _).
  exists data1, data2. unfold run_once. rewrite E1. cbn [fst snd].
  rewrite E2. cbn [fst snd]. repeat split; assumption.
Defined.

Lemma malformed_config_raises_witness :
  let pre := [pair "x"; triple "y" 1] in
  let post := [pair "z"] in
  let w1 := snd (compare_algorithms pre 1000 500 fresh) in
  compare_algorithms pre 1000 500 fresh = (Ok tt, w1)
  /\ List.length (quadruple "q" 1) <> 2%nat
  /\ List.length (quadruple "q" 1) <> 3%nat
  /\ compare_algorithms (pre ++ quadruple "q" 1 :: post) 1000 500 fresh
     = (Raise ValueError, w1)
  /\ keys (results (bench w1)) = ["x"; "y"]%string.
Proof.
  intros pre post w1.
  assert (Hpre : compare_algorithms pre 1000 500 fresh = (Ok tt, w1))
    by (vm_compute; reflexivity).
  assert (H2 : List.length (quadruple "q" 1) <> 2%nat) by (cbn; lia).
  assert (H3 : List.length (quadruple "q" 1) <> 3%nat) by (cbn; lia).
  split; [exact Hpre|]. split; [exact H2|]. split; [exact H3|].
  split; [|reflexivity].
  exact (proj1 (malformed_config_raises pre (quadruple "q" 1) post
                  1000 500 fresh w1 Hpre H2 H3)).
Defined.

Lemma batch_keeps_input_order_witness :
  let w := run_once "z" 1000 500 fresh in
  let batch := [pair "x"; triple "y" 1] in
  let w' := snd (compare_algorithms batch 1000 500 w) in
  compare_algorithms batch 1000 500 w = (Ok tt, w')
  /\ NoDup (batch_names batch)
  /\ (forall name, In name (batch_names batch) ->
                   ~ In name (keys (results (bench w))))
  /\ keys (results (bench w')) = ["z"; "x"; "y"]%string
  /\ label_free None (results (bench w'))
  /\ plot_labels (emitted (plot_convergence None false (10, 6) None) w')
     = ["z"; "x"; "y"]%string.
Proof.
  intros w batch w'.
  assert (Hrun : compare_algorithms batch 1000 500 w = (Ok tt, w'))
    by (vm_compute; reflexivity).
  assert (Hnd : NoDup (batch_names batch)).
  { cbn. repeat constructor; cbn; intuition discriminate. }
  assert (Hnew : forall name, In name (batch_names batch) ->
                              ~ In name (keys (results (bench w)))).
  { cbn. intros name [<-|[<-|[]]] [H|[]]; discriminate. }
  assert (Hfree : label_free None (results (bench w'))).
  { apply Forall_forall. intros entry _. reflexivity. }
  destruct (batch_keeps_input_order batch 1000 500 w w' Hrun Hnd Hnew)
    as (Hkeys & _ & _ & Hplot & _).
  split; [exact Hrun|]. split; [exact Hnd|]. split; [exact Hnew|].
  split; [exact Hkeys|]. split; [exact Hfree|].
  exact (eq_trans (Hplot None false (10, 6) None Hfree) Hkeys).
Defined.

(** The claim C7 as it is worded fails: with "y" already stored, the batch
    "x", "y" leaves the store iterating "y" first. *)
Lemma stored_name_keeps_its_place :
  let w := run_once "y" 1000 500 fresh in
  let batch := [pair "x"; pair "y"] in
  let w' := snd (compare_algorithms batch 1000 500 w) in
  NoDup (batch_names batch)
  /\ compare_algorithms batch 1000 500 w = (Ok tt, w')
  /\ batch_names batch = ["x"; "y"]%string
  /\ keys (results (bench w')) = ["y"; "x"]%string
  /\ keys (results (bench w')) <> batch_names batch.
Proof.
  intros w batch w'. split.
  - cbn. repeat constructor; cbn; intuition discriminate.
  - vm_compute. repeat split. discriminate.
Qed.

Lemma print_summary_rows_witness :
  let w := snd (compare_algorithms [pair "x"; triple "y" 1] 1000 500 fresh) in
  Forall (fun entry => has_checkpoint (snd entry)) (results (bench w))
  /\ fst (print_summary w) = Ok tt
  /\ summary_table (emitted print_summary w)
     = [("x"%string, 1000, 1003); ("y"%string, 1000, 1004)]
  /\ bench (snd (print_summary w)) = bench w.
Proof.
  intros w.
  assert (Hall : Forall (fun entry => has_checkpoint (snd entry))
                        (results (bench w))).
  { vm_compute. repeat constructor; discriminate. }
  destruct (print_summary_rows w) as [Hsame Hrows].
  destruct (Hrows Hall) as [Hok Htable].
  split; [exact Hall|]. split; [exact Hok|]. split; [|exact Hsame].
  rewrite Htable. reflexivity.
Defined.

(** The claim C8 as it is worded fails: "b" is stored with checkpoints up
    to 1000, after "a" which has none, and the summary has no row for it. *)
Lemma summary_stops_at_empty_run :
  let w := run_once "b" 1000 500 (run_once "a" 1 2 fresh) in
  keys (results (bench w)) = ["a"; "b"]%string
  /\ dict_get "b" (results (bench w))
     = Some (mk_run_data [500; 1000] [503; 1003] (3, 1000))
  /\ fst (print_summary w) = Raise IndexError
  /\ summary_table (emitted print_summary w) = []
  /\ map (fun row => fst (fst row)) (summary_table (emitted print_summary w))
     <> keys (results (bench w)).
Proof.
  vm_compute. repeat split. discriminate.
Qed.

Lemma print_summary_empty_run_witness :
  let w := run_once "b" 1000 500 (run_once "a" 1 2 (run_once "x" 1000 500 fresh)) in
  (exists pre data post,
     results (bench w) = pre ++ ("a"%string, data) :: post
     /\ iterations data = []
     /\ Forall (fun entry => has_checkpoint (snd entry)) pre)
  /\ fst (print_summary w) = Raise IndexError
  /\ summary_table (emitted print_summary w) = [("x"%string, 1000, 1003)].
Proof.
  intros w.
  pose (x := mk_run_data [500; 1000] [503; 1003] (3, 1000)).
  pose (a := mk_run_data [] [] (3, 0)).
  pose (b := mk_run_data [500; 1000] [503; 1003] (3, 1000)).
  assert (Hres : results (bench w)
                 = [("x"%string, x)] ++ ("a"%string, a) :: [("b"%string, b)])
    by (vm_compute; reflexivity).
  assert (Hpre : Forall (fun entry => has_checkpoint (snd entry))
                        [("x"%string, x)])
    by (repeat constructor; discriminate).
  destruct (print_summary_empty_run w _ _ _ _ Hres eq_refl) as [Hraise Htable].
  split; [|split].
  - exists [("x"%string, x)], a, [("b"%string, b)].
    split; [exact Hres|]. split; [reflexivity|exact Hpre].
  - exact Hraise.
  - rewrite (Htable Hpre). reflexivity.
Defined.

Lemma stored_runs_balanced_witness :
  let w := snd (compare_algorithms [pair "x"; quadruple "q" 1] 25 10
                                   (run_once "a" 1 2 fresh)) in
  session w /\ balanced (results (bench w))
  /\ keys (results (bench w)) = ["a"; "x"]%string.
Proof.
  intros w.
  assert (Hs : session w).
  { apply session_compare_algorithms, session_run_algorithm, session_init. }
  split; [exact Hs|]. split; [|reflexivity].
  exact (proj1 (stored_runs_balanced w Hs)).
Defined.
End Example.

(** * The further theorems at work on the small solver *)
Module MoreExamples.
Import Example.
#[local] Existing Instance counting.

Lemma dropped_remainder_witness :
  0 < 10 /\ 0 <= 25
  /\ iterations_executed (emitted (run_algorithm counter "x" 25 10 None) fresh)
     = 25 - 25 mod 10.
Proof.
  split; [lia|]. split; [lia|].
  exact (proj1 (dropped_remainder counter "x" 25 10 None fresh
                  ltac:(lia) ltac:(lia))).
Defined.

Lemma negative_interval_witness :
  -2 < 0 /\ -5 <= -2
  /\ exists data,
       fst (run_algorithm counter "x" (-5) (-2) None fresh) = Ok data
       /\ Forall (fun n => n < 0) (iterations data)
       /\ run_calls (emitted (run_algorithm counter "x" (-5) (-2) None) fresh)
          = [-2; -2].
Proof.
  split; [lia|]. split; [lia|].
  destruct (negative_interval counter "x" (-5) (-2) None fresh)
    as (data & w' & Hrun & _ & _ & Hblocks); [lia|].
  destruct Hblocks as (_ & _ & Hneg & Hcalls); [lia|].
  exists data. rewrite Hrun. split; [reflexivity|]. split; [exact Hneg|].
  exact Hcalls.
Defined.

Lemma final_strategy_is_last_profile_witness :
  10 <> 0 /\ (0 < Z.to_nat (25 / 10))%nat
  /\ exists data,
       fst (run_algorithm counter "x" 25 10 None fresh) = Ok data
       /\ final_strategy data = (3, 20)
       /\ py_last (exploitability data)
          = Ok (sum (snd (best_response (final_strategy data)))).
Proof.
  split; [lia|]. split; [vm_compute; lia|].
  destruct (final_strategy_is_last_profile counter "x" 25 10 None fresh)
    as (data & w' & Hrun & Hfinal & _ & Hlast); [lia|].
  destruct Hlast as [_ Hlast]; [vm_compute; lia|].
  exists data. rewrite Hrun. split; [reflexivity|]. split; [|exact Hlast].
  rewrite Hfinal. reflexivity.
Defined.

Lemma run_algorithm_touches_one_entry_witness :
  let w := run_once "y" 25 10 fresh in
  "y"%string <> "x"%string
  /\ dict_get "y" (results (bench (run_once "x" 30 10 w)))
     = dict_get "y" (results (bench w))
  /\ keys (results (bench (run_once "x" 30 10 w))) = ["y"; "x"]%string.
Proof.
  intros w.
  assert (Hne : "y"%string <> "x"%string) by discriminate.
  destruct (run_algorithm_touches_one_entry counter "x" 30 10 None w)
    as (_ & _ & Hother & Hkeys & _).
  split; [exact Hne|]. split; [exact (Hother "y"%string Hne)|].
  unfold run_once at 1. rewrite Hkeys. reflexivity.
Defined.

Lemma batch_returns_witness :
  Forall documented [pair "x"; triple "y" 1] /\ 10 <> 0
  /\ fst (compare_algorithms [pair "x"; triple "y" 1] 25 10 fresh) = Ok tt.
Proof.
  assert (Hdoc : Forall documented [pair "x"; triple "y" 1]).
  { repeat constructor.
    - exists counter, "x"%string, empty_kwargs. constructor.
    - exists counter, "y"%string, 1. constructor. }
  assert (Hi : 10 <> 0) by lia.
  split; [exact Hdoc|]. split; [exact Hi|].
  exact (proj2 (batch_returns [pair "x"; triple "y" 1] 25 10 fresh) Hdoc Hi).
Defined.

Lemma zero_interval_batch_witness :
  well_formed (triple "x" 4) counter "x" 4
  /\ compare_algorithms [triple "x" 4; pair "y"] 25 0 fresh
     = (Raise ZeroDivisionError,
        mk_state (bench fresh)
          [Print (Rule "=" 60); Print (Running "x" "Leduc");
           Print (Rule "=" 60); Construct 3 4]).
Proof.
  assert (Hwf : well_formed (triple "x" 4) counter "x" 4) by constructor.
  split; [exact Hwf|].
  exact (zero_interval_batch (triple "x" 4) [pair "y"] counter "x" 4 25 fresh
           Hwf).
Defined.

Lemma batch_store_order_witness :
  let w := run_once "y" 25 10 fresh in
  let batch := [pair "x"; pair "y"; triple "x" 1; pair "z"] in
  let w' := snd (compare_algorithms batch 25 10 w) in
  compare_algorithms batch 25 10 w = (Ok tt, w')
  /\ keys (results (bench w')) = ["y"; "x"; "z"]%string.
Proof.
  intros w batch w'.
  assert (Hrun : compare_algorithms batch 25 10 w = (Ok tt, w'))
    by (vm_compute; reflexivity).
  split; [exact Hrun|].
  rewrite (batch_store_order batch 25 10 w w' Hrun). reflexivity.
Defined.

Lemma batch_only_adds_witness :
  let w := run_once "y" 25 10 fresh in
  let batch := [pair "x"; quadruple "q" 1; pair "z"] in
  ~ In "y"%string (batch_names batch)
  /\ dict_get "y" (results (bench (snd (compare_algorithms batch 25 10 w))))
     = dict_get "y" (results (bench w)).
Proof.
  intros w batch.
  assert (Hnot : ~ In "y"%string (batch_names batch)).
  { cbn. intros [H|[H|[H|[]]]]; discriminate. }
  split; [exact Hnot|].
  destruct (batch_only_adds batch 25 10 w) as (_ & _ & _ & Hget).
  exact (Hget "y"%string Hnot).
Defined.

Lemma plot_draws_every_run_witness :
  let w := run_once "y" 25 10 (run_once "x" 30 10 fresh) in
  let red := Some [("x", [("color", "red")])]%string in
  let labelled := Some [("y", [("label", "why")])]%string in
  (label_free red (results (bench w))
   /\ List.length
        (plot_calls (emitted (plot_convergence None false (10, 6) red) w))
      = 2%nat)
  /\ (~ label_free labelled (results (bench w))
      /\ fst (plot_convergence None false (10, 6) labelled w)
         = Raise TypeError)
  /\ ((@None (dict style) = None \/ @None (dict style) = Some [])
      /\ map snd (plot_calls
                    (emitted (plot_convergence None false (10, 6) None) w))
         = [default_style; default_style]).
Proof.
  intros w red labelled.
  assert (Hfree : label_free red (results (bench w)))
    by (vm_compute; repeat constructor).
  assert (Hnot : ~ label_free labelled (results (bench w))).
  { intros H. vm_compute in H.
    inversion H as [|? ? _ H2]. inversion H2 as [|? ? H3 _]. discriminate. }
  assert (Hsc : @None (dict style) = None \/ @None (dict style) = Some [])
    by now left.
  split; [|split].
  - split; [exact Hfree|].
    destruct (plot_draws_every_run None false (10, 6) red w)
      as (_ & _ & _ & _ & Hk & _).
    exact (proj2 Hk Hfree).
  - split; [exact Hnot|].
    destruct (plot_draws_every_run None false (10, 6) labelled w)
      as (_ & _ & _ & _ & _ & Hraise & _).
    exact (proj2 Hraise Hnot).
  - split; [exact Hsc|].
    destruct (plot_draws_every_run None false (10, 6) None w)
      as (_ & _ & _ & _ & _ & _ & Hst).
    rewrite (Hst Hsc). reflexivity.
Defined.

Lemma plot_saving_and_scales_witness :
  let w := run_once "y" 25 10 (run_once "x" 30 10 fresh) in
  let labelled := Some [("y", [("label", "why")])]%string in
  (label_free None (results (bench w))
   /\ (true = false
       \/ (results (bench w) <> []
           /\ Forall (fun entry => has_checkpoint (snd entry))
                     (results (bench w))))
   /\ saved_paths
        (emitted (plot_convergence (Some "out.png"%string) true (10, 6) None) w)
      = ["out.png"%string]
   /\ py_last
        (emitted (plot_convergence (Some "out.png"%string) true (10, 6) None) w)
      = Ok (Plt show))
  /\ (~ label_free labelled (results (bench w))
      /\ fst (plot_convergence (Some "out.png"%string) true (10, 6) labelled w)
         = Raise TypeError
      /\ saved_paths
           (emitted (plot_convergence (Some "out.png"%string) true (10, 6)
                                      labelled) w)
         = []).
Proof.
  intros w labelled.
  assert (Hfree : label_free None (results (bench w))).
  { apply Forall_forall. intros entry _. reflexivity. }
  assert (Hdata : true = false
                  \/ (results (bench w) <> []
                      /\ Forall (fun entry => has_checkpoint (snd entry))
                                (results (bench w)))).
  { right. split; [vm_compute; discriminate|].
    vm_compute. repeat constructor; discriminate. }
  assert (Hnot : ~ label_free labelled (results (bench w))).
  { intros H. vm_compute in H.
    inversion H as [|? ? _ H2]. inversion H2 as [|? ? H3 _]. discriminate. }
  split.
  - split; [exact Hfree|]. split; [exact Hdata|].
    destruct (plot_saving_and_scales (Some "out.png"%string) true (10, 6)
                                     None w) as (_ & Hret & _).
    destruct (Hret Hfree) as (_ & _ & Hsave).
    destruct (Hsave Hdata) as (_ & Hpaths & _ & Hlast).
    split; [exact Hpaths|exact Hlast].
  - split; [exact Hnot|].
    destruct (plot_saving_and_scales (Some "out.png"%string) true (10, 6)
                                     labelled w) as (_ & _ & Hraise).
    destruct (Hraise Hnot) as (Hfst & _ & _ & Hpaths & _).
    split; [exact Hfst|exact Hpaths].
Defined.

Lemma summary_returns_iff_witness :
  let w := run_once "y" 25 10 (run_once "x" 30 10 fresh) in
  session w
  /\ Forall (fun entry => iterations (snd entry) <> []) (results (bench w))
  /\ fst (print_summary w) = Ok tt.
Proof.
  intros w.
  assert (Hs : session w)
    by (apply session_run_algorithm, session_run_algorithm, session_init).
  assert (Hall : Forall (fun entry => iterations (snd entry) <> [])
                        (results (bench w)))
    by (vm_compute; repeat constructor; discriminate).
  split; [exact Hs|]. split; [exact Hall|].
  exact (proj2 (proj1 (summary_returns_iff w Hs)) Hall).
Defined.

Lemma summary_shape_witness :
  let w := run_once "b" 25 10 (run_once "a" 1 2 (run_once "x" 30 10 fresh)) in
  let k := List.length (summary_table (emitted print_summary w)) in
  (k < List.length (results (bench w)))%nat
  /\ summary_table (emitted print_summary w) = [("x"%string, 30, 33)]
  /\ exists entry, nth_error (results (bench w)) k = Some entry
                   /\ ~ has_checkpoint (snd entry).
Proof.
  intros w k.
  destruct (summary_shape w) as (_ & Htable & _ & Hstop & _).
  fold k in Htable, Hstop.
  assert (Hk : (k < List.length (results (bench w)))%nat)
    by (vm_compute; lia).
  split; [exact Hk|]. split; [|exact (Hstop Hk)].
  rewrite Htable. reflexivity.
Defined.

Lemma reports_repeat_witness :
  let w := run_once "a" 1 2 (run_once "x" 30 10 fresh) in
  let after := snd (print_summary w) in
  (after = snd (print_summary w)
   \/ after = snd (plot_convergence None true (10, 6) None w))
  /\ emitted print_summary after = emitted print_summary w
  /\ fst (print_summary after) = Raise IndexError.
Proof.
  intros w after.
  assert (Hafter : after = snd (print_summary w)
                   \/ after = snd (plot_convergence None true (10, 6) None w))
    by now left.
  destruct (reports_repeat None true (10, 6) None w after Hafter)
    as (Hsame & Hfst & _).
  split; [exact Hafter|]. split; [exact Hsame|].
  rewrite Hfst. reflexivity.
Defined.

Lemma test_script_matches_run_algorithm_witness :
  1000 <> 0 /\ 0 <= 3
  /\ test_solver_calls (test_script 3 counter 1000 3)
     = solver_calls (emitted (run_algorithm counter "x" (3 * 1000) 1000 None)
                             fresh)
  /\ test_solver_calls (test_script 3 counter 1000 3)
     = [CallRun 1000; CallBestResponse; CallRun 1000; CallBestResponse;
        CallRun 1000; CallBestResponse]
  /\ List.length (exploitability_totals (test_script 3 counter 1000 3))
     = 3%nat.
Proof.
  split; [lia|]. split; [lia|].
  destruct (test_script_matches_run_algorithm counter "x" 1000 3 fresh)
    as (data & w' & _ & _ & Hsame & Hcalls & Htotals & _); [lia|lia|].
  split; [exact Hsame|]. split; [|exact Htotals].
  exact (eq_trans Hsame Hcalls).
Defined.

Lemma test_script_labels_witness :
  1000 <> 0 /\ 0 <= 3
  /\ exists data,
       fst (run_algorithm counter "x" (3 * 1000) 1000 None fresh) = Ok data
       /\ iteration_labels (test_script 3 counter 1000 3)
          = map (fun count => count - 1000) (iterations data)
       /\ iteration_labels (test_script 3 counter 1000 3) = [0; 1000; 2000].
Proof.
  split; [lia|]. split; [lia|].
  destruct (test_script_labels counter "x" 1000 3 fresh)
    as (data & w' & Hrun & Hlabels & _); [lia|lia|].
  exists data. rewrite Hrun. split; [reflexivity|]. split; [exact Hlabels|].
  reflexivity.
Defined.
End MoreExamples.
